(** * bigclock: the seven-segment clock face of [bigclock.c]

    A shallow embedding of the drawing code of [bigclock.c] (the segment
    table [segmap], [segdigit], [draw_colon] and the draw callback
    [draw_cb]) together with the properties of the clock face.

    Conventions of the embedding.
    - C [int] values are integers of [Z]; [/] and [%] of C truncate towards
      zero and are [Z.quot] and [Z.rem].  With the constants of the source
      and the [uint8_t] fields of the clock, every value computed by
      [draw_cb] is below 256 in magnitude, far from the limits of an
      [int], so overflow is not modelled.
    - The canvas primitives ([canvas_draw_box], [canvas_draw_frame],
      [canvas_draw_str], [canvas_set_font]) belong to the host firmware.
      A canvas is therefore the chronological record of the primitive calls
      made on it, plus the font currently selected.
    - Drawing code runs in a small state-and-fault monad over the canvas;
      the one fault the C code could commit, reading [segmap] out of its
      bounds, is a fault of the monad.
    - The entry point [bigclock_app] is the main thread only: a function
      of the input events that its queue delivers, recording the calls it
      makes to the host.  The callbacks [input_cb] and [tick_cb] run on
      other threads of the host and are not part of the development. *)

From Stdlib Require Import ZArith List String Bool Lia.
Import ListNotations.
Local Open Scope Z_scope.

(** ** The canvas *)

(** The [Font] enumeration of the host's [canvas.h]. *)
Inductive Font : Type :=
| FontPrimary
| FontSecondary
| FontKeyboard
| FontBigNumbers.

(** One call of a canvas primitive, with the arguments as passed. *)
Inductive DrawOp : Type :=
| OpBox (x y w h : Z)            (* canvas_draw_box: a filled rectangle *)
| OpFrame (x y w h : Z)          (* canvas_draw_frame: an outline *)
| OpStr (x y : Z) (s : string)   (* canvas_draw_str: text at an origin *)
| OpSetFont (f : Font).          (* canvas_set_font *)

Record Canvas : Type := mkCanvas {
  trace : list DrawOp;   (* the calls made so far, oldest first *)
  font : Font            (* the font currently selected *)
}.

(** ** The monad of drawing code *)

Inductive Fault : Type :=
| IndexOutOfBounds   (* an array read outside its bounds *)
| LoopFuel.          (* a loop ran longer than its bound *)

Inductive result (A : Type) : Type :=
| Ok (a : A)
| Err (e : Fault).

Arguments Ok {A} a.
Arguments Err {A} e.

Definition M (A : Type) : Type := Canvas -> result (A * Canvas).

Definition ret {A : Type} (a : A) : M A := fun c => Ok (a, c).

Definition bind {A B : Type} (m : M A) (k : A -> M B) : M B :=
  fun c =>
    match m c with
    | Ok (a, c') => k a c'
    | Err e => Err e
    end.

Definition fail {A : Type} (e : Fault) : M A := fun _ => Err e.

Declare Scope draw_scope.
Delimit Scope draw_scope with draw.
Notation "x <- m ;; k" := (bind m (fun x => k))
  (at level 61, m at next level, right associativity) : draw_scope.
Notation "m ;; k" := (bind m (fun _ => k))
  (at level 61, right associativity) : draw_scope.
Local Open Scope draw_scope.

(** A C statement [if(b) s;] without [else]. *)
Definition when (b : bool) (s : M unit) : M unit :=
  if b then s else ret tt.

(** What one primitive call does to a canvas. *)
Definition apply_op (c : Canvas) (op : DrawOp) : Canvas :=
  {| trace := trace c ++ [op];
     font := match op with OpSetFont f => f | _ => font c end |}.

Definition canvas_draw_box (x y w h : Z) : M unit :=
  fun c => Ok (tt, apply_op c (OpBox x y w h)).

Definition canvas_draw_frame (x y w h : Z) : M unit :=
  fun c => Ok (tt, apply_op c (OpFrame x y w h)).

Definition canvas_draw_str (x y : Z) (s : string) : M unit :=
  fun c => Ok (tt, apply_op c (OpStr x y s)).

Definition canvas_set_font (f : Font) : M unit :=
  fun c => Ok (tt, apply_op c (OpSetFont f)).

(** ** 7-seg digit drawing helpers (bigclock.c, lines 30-83) *)

(** A seven-bit binary literal, most significant bit first, as the
    literals [0b.......] of the source are written. *)
Definition bin7 (b6 b5 b4 b3 b2 b1 b0 : Z) : Z :=
  b6 * 64 + b5 * 32 + b4 * 16 + b3 * 8 + b2 * 4 + b1 * 2 + b0.

(** bit positions: 0=a (top), 1=b (upper-right), 2=c (lower-right),
    3=d (bottom), 4=e (lower-left), 5=f (upper-left), 6=g (middle) *)
Definition segmap : list Z :=
  [ (*0*) bin7 0 1 1 1 1 1 1;
    (*1*) bin7 0 0 0 0 1 1 0;
    (*2*) bin7 1 0 1 1 0 1 1;
    (*3*) bin7 1 0 0 1 1 1 1;
    (*4*) bin7 1 1 0 0 1 1 0;
    (*5*) bin7 1 1 0 1 1 0 1;
    (*6*) bin7 1 1 1 1 1 0 1;
    (*7*) bin7 0 0 0 0 1 1 1;
    (*8*) bin7 1 1 1 1 1 1 1;
    (*9*) bin7 1 1 0 1 1 1 1 ].

(** The array read [segmap[d]]: defined inside the ten entries only. *)
Definition segmap_at (d : Z) : option Z :=
  if d <? 0 then None else nth_error segmap (Z.to_nat d).

Definition read_segmap (d : Z) : M Z :=
  match segmap_at d with
  | Some m => ret m
  | None => fail IndexOutOfBounds
  end.

(** The C condition [m & (1 << k)]: true when the result is not zero. *)
Definition lit (m k : Z) : bool :=
  negb (Z.land m (Z.shiftl 1 k) =? 0).

Definition segdigit (x y w h t d : Z) : M unit :=
  (* d is -1 to mean "blank" (used for leading zero in hours). *)
  if (d <? 0) || (d >? 9) then ret tt else
  m <- read_segmap d ;;
  let ym := y + Z.quot h 2 in
  let half := Z.quot h 2 in
  (* Horizontal segments. *)
  when (lit m 0) (canvas_draw_box x y w t) ;;                      (* a *)
  when (lit m 6) (canvas_draw_box x (ym - Z.quot t 2) w t) ;;      (* g *)
  when (lit m 3) (canvas_draw_box x (y + h - t) w t) ;;            (* d *)
  (* Vertical segments. *)
  when (lit m 5) (canvas_draw_box x y t half) ;;                   (* f *)
  when (lit m 1) (canvas_draw_box (x + w - t) y t half) ;;         (* b *)
  when (lit m 4) (canvas_draw_box x (y + h - half) t half) ;;      (* e *)
  when (lit m 2) (canvas_draw_box (x + w - t) (y + h - half) t half). (* c *)

(** Two square dots between HH and MM. *)
Definition draw_colon (x y t : Z) : M unit :=
  canvas_draw_box x (y + 16) t t ;;
  canvas_draw_box x (y + 40) t t.

(** ** Draw callback (bigclock.c, lines 92-179) *)

(** The fields of the host's [DateTime] that the callback reads (all
    [uint8_t] in the host's header), as read from the real-time clock. *)
Record DateTime : Type := mkDateTime {
  hour : Z;
  minute : Z;
  second : Z
}.

(** The "layout constants" block of [draw_cb] (lines 113-127), and the
    canvas width that its [right_edge] starts from (the literal 128 of
    line 120).  The source fixes them; they are gathered in a record so
    that the defensive guard of line 137 can be studied on other values. *)
Record Layout : Type := mkLayout {
  canvas_w : Z;
  lay_y : Z;
  lay_h : Z;
  lay_t : Z;
  bar_area_w : Z;
  lay_w : Z;
  lay_gap : Z;
  colon_w : Z;
  colon_gap : Z;
  lay_x0 : Z
}.

(** The constants as shipped: tuned for 128x64. *)
Definition shipped : Layout :=
  {| canvas_w := 128;
     lay_y := 2; lay_h := 60; lay_t := 7;
     bar_area_w := 12;
     lay_w := 23; lay_gap := 3; colon_w := 6; colon_gap := 2;
     lay_x0 := 2 |}.

Definition right_edge (L : Layout) : Z := canvas_w L - 2 - bar_area_w L.
Definition xH0 (L : Layout) : Z := lay_x0 L.
Definition xH1 (L : Layout) : Z := xH0 L + lay_w L + lay_gap L.
Definition cx (L : Layout) : Z := xH1 L + lay_w L + colon_gap L.
Definition xM0 (L : Layout) : Z := cx L + colon_w L + colon_gap L.
Definition xM1 (L : Layout) : Z := xM0 L + lay_w L + lay_gap L.

(** The defensive guard of [draw_cb]. *)
Definition fits (L : Layout) : bool := xM1 L + lay_w L <=? right_edge L.

(** 12-hour clock: 0 -> 12, 13 -> 1, etc. (lines 101-103) *)
Definition hour12 (H24 : Z) : Z :=
  let H12 := Z.rem H24 12 in
  if H12 =? 0 then 12 else H12.

(** Hours tens digit is blank for 1..9, then 1 for 10..12
    (lines 105-107); -1 is the blank digit. *)
Definition blank : Z := -1.

Definition hour_tens (H12 : Z) : Z :=
  let ht_raw := Z.quot H12 10 in
  if ht_raw =? 0 then blank else ht_raw.

(** The progress count: [second / 10], capped at [steps]
    (lines 149-151). *)
Definition steps : Z := 5.

Definition progress_count (sec : Z) : Z :=
  let count := Z.quot sec 10 in
  if count >? steps then steps else count.

(** [for(int i = ...; i < count; i++) body(i)], with a bound on the
    number of iterations; running past the bound is a fault. *)
Fixpoint for_lt (fuel : nat) (i count : Z) (body : Z -> M unit) : M unit :=
  if i <? count then
    match fuel with
    | O => fail LoopFuel
    | S fuel' => body i ;; for_lt fuel' (i + 1) count body
    end
  else ret tt.

Definition bar_w : Z := 6.
Definition bar_h : Z := 8.
Definition bar_gap : Z := 1.
Definition by_ : Z := 2.

Definition draw_cb_with (L : Layout) (dt : DateTime) : M unit :=
  let H24 := hour dt in
  let Mi := minute dt in
  let H12 := hour12 H24 in
  let ht := hour_tens H12 in
  let ho := Z.rem H12 10 in
  let mt := Z.quot Mi 10 in
  let mo := Z.rem Mi 10 in
  let y := lay_y L in
  let h := lay_h L in
  let t := lay_t L in
  let w := lay_w L in
  (if xM1 L + w <=? right_edge L then
     segdigit (xH0 L) y w h t ht ;;
     segdigit (xH1 L) y w h t ho ;;
     draw_colon (cx L) y (colon_w L) ;;
     segdigit (xM0 L) y w h t mt ;;
     segdigit (xM1 L) y w h t mo
   else
     canvas_draw_box 0 0 3 3) ;;
  (* 10-second progress indicator *)
  let count := progress_count (second dt) in
  let bx := right_edge L + Z.quot (bar_area_w L - bar_w) 2 in
  for_lt (Z.to_nat steps) 0 count
    (fun i =>
       let yy := by_ + i * (bar_h + bar_gap) in
       canvas_draw_frame bx yy bar_w bar_h) ;;
  (* AM/PM indicator: two fixed labels, only one is "lit". *)
  let is_pm := hour dt >=? 12 in
  let is_am := negb is_pm in
  let col_h := steps * bar_h + (steps - 1) * bar_gap in
  let ap_x := right_edge L + 1 in
  let ap_y0 := by_ + col_h + 2 in
  canvas_set_font FontKeyboard ;;
  when is_am (canvas_draw_str ap_x (ap_y0 + 7) "AM") ;;
  when is_pm (canvas_draw_str ap_x (ap_y0 + 15) "PM") ;;
  canvas_set_font FontPrimary.

(** The callback as built: the shipped constants. *)
Definition draw_cb (dt : DateTime) : M unit := draw_cb_with shipped dt.

Definition blank_canvas : Canvas := {| trace := []; font := FontSecondary |}.

(** ** What a piece of drawing code emits *)

Definition apply_ops (c : Canvas) (ops : list DrawOp) : Canvas :=
  fold_left apply_op ops c.

(** [emits m ops]: from any canvas, [m] returns normally after making
    exactly the primitive calls [ops], in that order. *)
Definition emits (m : M unit) (ops : list DrawOp) : Prop :=
  forall c, m c = Ok (tt, apply_ops c ops).

(** The integers [i, i+1, ..., i+n-1]. *)
Fixpoint zrange (i : Z) (n : nat) : list Z :=
  match n with
  | O => []
  | S n' => i :: zrange (i + 1) n'
  end.

(** The seven segments, named as in the comment above [segmap]. *)
Inductive Segment : Type :=
| SegA | SegB | SegC | SegD | SegE | SegF | SegG.

Definition seg_bit (s : Segment) : Z :=
  match s with
  | SegA => 0 | SegB => 1 | SegC => 2 | SegD => 3
  | SegE => 4 | SegF => 5 | SegG => 6
  end.

(** The order in which [segdigit] tests the segments. *)
Definition draw_order : list Segment :=
  [SegA; SegG; SegD; SegF; SegB; SegE; SegC].

(** The rectangle [segdigit] draws for a lit segment. *)
Definition seg_box (x y w h t : Z) (s : Segment) : DrawOp :=
  match s with
  | SegA => OpBox x y w t
  | SegG => OpBox x (y + Z.quot h 2 - Z.quot t 2) w t
  | SegD => OpBox x (y + h - t) w t
  | SegF => OpBox x y t (Z.quot h 2)
  | SegB => OpBox (x + w - t) y t (Z.quot h 2)
  | SegE => OpBox x (y + h - Z.quot h 2) t (Z.quot h 2)
  | SegC => OpBox (x + w - t) (y + h - Z.quot h 2) t (Z.quot h 2)
  end.

Definition lit_segments (m : Z) : list Segment :=
  filter (fun s => lit m (seg_bit s)) draw_order.

Definition segdigit_ops (x y w h t d : Z) : list DrawOp :=
  match segmap_at d with
  | Some m => map (seg_box x y w h t) (lit_segments m)
  | None => []
  end.

Definition digit_ops (L : Layout) (dt : DateTime) : list DrawOp :=
  let H12 := hour12 (hour dt) in
  let y := lay_y L in
  let h := lay_h L in
  let t := lay_t L in
  let w := lay_w L in
  if fits L then
    segdigit_ops (xH0 L) y w h t (hour_tens H12)
    ++ segdigit_ops (xH1 L) y w h t (Z.rem H12 10)
    ++ [OpBox (cx L) (y + 16) (colon_w L) (colon_w L);
        OpBox (cx L) (y + 40) (colon_w L) (colon_w L)]
    ++ segdigit_ops (xM0 L) y w h t (Z.quot (minute dt) 10)
    ++ segdigit_ops (xM1 L) y w h t (Z.rem (minute dt) 10)
  else [OpBox 0 0 3 3].

Definition progress_frame (L : Layout) (i : Z) : DrawOp :=
  OpFrame (right_edge L + Z.quot (bar_area_w L - bar_w) 2)
          (by_ + i * (bar_h + bar_gap)) bar_w bar_h.

Definition progress_ops (L : Layout) (sec : Z) : list DrawOp :=
  map (progress_frame L) (zrange 0 (Z.to_nat (progress_count sec))).

Definition meridiem_label (L : Layout) (H24 : Z) : DrawOp :=
  if H24 >=? 12
  then OpStr (right_edge L + 1) (by_ + 44 + 2 + 15) "PM"
  else OpStr (right_edge L + 1) (by_ + 44 + 2 + 7) "AM".

Definition meridiem_ops (L : Layout) (H24 : Z) : list DrawOp :=
  [OpSetFont FontKeyboard; meridiem_label L H24; OpSetFont FontPrimary].

Definition frame_ops (L : Layout) (dt : DateTime) : list DrawOp :=
  digit_ops L dt ++ progress_ops L (second dt) ++ meridiem_ops L (hour dt).

Definition is_box (op : DrawOp) : bool :=
  match op with OpBox _ _ _ _ => true | _ => false end.
Definition is_frame (op : DrawOp) : bool :=
  match op with OpFrame _ _ _ _ => true | _ => false end.
Definition is_str (op : DrawOp) : bool :=
  match op with OpStr _ _ _ => true | _ => false end.
Definition is_set_font (op : DrawOp) : bool :=
  match op with OpSetFont _ => true | _ => false end.

(** ** Vocabulary of the properties *)

(** The traditional seven-segment alphabet: the segments lit for each of
    the digits 0..9, in the usual naming (a on top, then clockwise b, c,
    d, e, f, and g in the middle). *)
Definition canonical_segments (d : Z) : list Segment :=
  match d with
  | 0 => [SegA; SegB; SegC; SegD; SegE; SegF]
  | 1 => [SegB; SegC]
  | 2 => [SegA; SegB; SegD; SegE; SegG]
  | 3 => [SegA; SegB; SegC; SegD; SegG]
  | 4 => [SegB; SegC; SegF; SegG]
  | 5 => [SegA; SegC; SegD; SegF; SegG]
  | 6 => [SegA; SegC; SegD; SegE; SegF; SegG]
  | 7 => [SegA; SegB; SegC]
  | 8 => [SegA; SegB; SegC; SegD; SegE; SegF; SegG]
  | 9 => [SegA; SegB; SegC; SegD; SegF; SegG]
  | _ => []
  end.

(** The mask with exactly the bits of the given segments set. *)
Definition mask_of (l : list Segment) : Z :=
  fold_right (fun s acc => Z.lor (Z.shiftl 1 (seg_bit s)) acc) 0 l.

(** Rows of a rectangle: [op_top] is its first row, [op_bottom] the first
    row below it. *)
Definition op_top (op : DrawOp) : Z :=
  match op with
  | OpBox _ y _ _ | OpFrame _ y _ _ | OpStr _ y _ => y
  | OpSetFont _ => 0
  end.
Definition op_bottom (op : DrawOp) : Z :=
  match op with
  | OpBox _ y _ h | OpFrame _ y _ h => y + h
  | OpStr _ y _ => y
  | OpSetFont _ => 0
  end.

(** The pixel [(px, py)] is painted by a filled rectangle. *)
Definition covers (op : DrawOp) (px py : Z) : bool :=
  match op with
  | OpBox x y w h =>
      (x <=? px) && (px <? x + w) && (y <=? py) && (py <? y + h)
  | _ => false
  end.

(** [upper] ends on the row where [lower] begins: between the two there
    is neither an unpainted row nor a row painted twice. *)
Definition abuts (upper lower : DrawOp) : Prop :=
  op_bottom upper = op_top lower.

(** A rectangle or a text origin lies inside the region with corner
    [(bx, by)], width [bw] and height [bh]; a font change draws nothing. *)
Definition inside (bx by' bw bh : Z) (op : DrawOp) : bool :=
  match op with
  | OpBox x y w h | OpFrame x y w h =>
      (bx <=? x) && (by' <=? y) && (0 <=? w) && (0 <=? h)
      && (x + w <=? bx + bw) && (y + h <=? by' + bh)
  | OpStr x y _ =>
      (bx <=? x) && (x <? bx + bw) && (by' <=? y) && (y <? by' + bh)
  | OpSetFont _ => true
  end.

(** The canvas of the product: 128x64 pixels, origin at the top left. *)
Definition in_canvas (op : DrawOp) : bool := inside 0 0 128 64 op.

(** A time sample as the clock source promises it. *)
Definition valid_time (dt : DateTime) : Prop :=
  0 <= hour dt <= 23 /\ 0 <= minute dt <= 59 /\ 0 <= second dt <= 59.

(** The upper and the lower vertical segment of each column meet: the
    upper one ends on the row where the lower one begins. *)
Definition halves_meet (x y w h t : Z) : Prop :=
  abuts (seg_box x y w h t SegF) (seg_box x y w h t SegE)
  /\ abuts (seg_box x y w h t SegB) (seg_box x y w h t SegC).

(** The geometry of a lit digit with vertical segments that meet
    whatever the height of the box. *)
Definition meets_at_any_height (x y w h t d : Z) : Prop :=
  exists m,
    segmap_at d = Some m
    /\ emits (segdigit x y w h t d)
             (map (seg_box x y w h t) (lit_segments m))
    /\ halves_meet x y w h t.

(** No font change escapes the frame drawn from the canvas [c]: the font
    selected on return is the font that was selected on entry. *)
Definition font_kept (dt : DateTime) (c : Canvas) : Prop :=
  forall c', draw_cb dt c = Ok (tt, c') -> font c' = font c.

(** The clock face on the shipped layout, as a function of what it shows:
    the four digits (or [blank]) and the number of progress boxes, then
    the meridiem.  Digit boxes are 23x60 with stroke 7, at x = 2, 28, 61
    and 87. *)
Definition face_drawing (ht ho mt mo count : Z) : list DrawOp :=
  segdigit_ops 2 2 23 60 7 ht
  ++ segdigit_ops 28 2 23 60 7 ho
  ++ [OpBox 53 18 6 6; OpBox 53 42 6 6]
  ++ segdigit_ops 61 2 23 60 7 mt
  ++ segdigit_ops 87 2 23 60 7 mo
  ++ map (fun i => OpFrame 117 (2 + i * 9) 6 8) (zrange 0 (Z.to_nat count)).

Definition face_label (pm : bool) : DrawOp :=
  if pm then OpStr 115 63 "PM" else OpStr 115 55 "AM".

Definition clock_face (ht ho mt mo count : Z) (pm : bool) : list DrawOp :=
  face_drawing ht ho mt mo count
  ++ [OpSetFont FontKeyboard; face_label pm; OpSetFont FontPrimary].

(** The shipped constants on a canvas 100 pixels wide: the digits no
    longer fit. *)
Definition narrow : Layout :=
  {| canvas_w := 100;
     lay_y := 2; lay_h := 60; lay_t := 7;
     bar_area_w := 12;
     lay_w := 23; lay_gap := 3; colon_w := 6; colon_gap := 2;
     lay_x0 := 2 |}.

(** ** Vocabulary of the further properties of the drawing code *)

(** The first column of a rectangle or of a text. *)
Definition box_left (op : DrawOp) : Z :=
  match op with
  | OpBox x _ _ _ | OpFrame x _ _ _ | OpStr x _ _ => x
  | OpSetFont _ => 0
  end.

(** The first column to the right of a rectangle. *)
Definition box_right (op : DrawOp) : Z :=
  match op with
  | OpBox x _ w _ | OpFrame x _ w _ => x + w
  | OpStr x _ _ => x
  | OpSetFont _ => 0
  end.

(** The filled rectangles of a record of calls that start in the columns
    [lo, hi). *)
Definition boxes_between (lo hi : Z) (ops : list DrawOp) : list DrawOp :=
  filter (fun op => is_box op && (lo <=? box_left op) && (box_left op <? hi))
         ops.

(** The pixel [(px, py)] is painted by one of the filled rectangles. *)
Definition painted (ops : list DrawOp) (px py : Z) : bool :=
  existsb (fun op => covers op px py) ops.

(** The pixel [(px, py)] is in the box at [(x, y)] of width [w] and height
    [h], within [t] pixels of one of its four sides. *)
Definition on_outline (x y w h t px py : Z) : bool :=
  (x <=? px) && (px <? x + w) && (y <=? py) && (py <? y + h)
  && ((px <? x + t) || (x + w - t <=? px)
      || (py <? y + t) || (y + h - t <=? py)).

(** ** Entry point (bigclock.c, lines 211-269) *)

(** The press kinds and the keys of the host's [input.h], and the part of
    its [InputEvent] that the entry point reads. *)
Inductive InputType : Type :=
| InputTypePress
| InputTypeRelease
| InputTypeShort
| InputTypeLong
| InputTypeRepeat.

Inductive InputKey : Type :=
| InputKeyUp
| InputKeyDown
| InputKeyRight
| InputKeyLeft
| InputKeyOk
| InputKeyBack.

Record InputEvent : Type := mkInputEvent {
  type : InputType;
  key : InputKey
}.

(** The records and the notification sequences that the entry point
    names. *)
Inductive RecordName : Type :=
| RECORD_GUI
| RECORD_NOTIFICATION.

Inductive Sequence : Type :=
| sequence_display_backlight_enforce_on
| sequence_display_backlight_enforce_auto
| sequence_reset_display.

(** One call made by the entry point on an object of the host.  The
    application has one queue, one view port and one timer, so the
    handles are not recorded.  The conversion [furi_ms_to_ticks(1000)] of
    line 236 touches no object of the host and is not a record of its
    own: [TimerStart] records the period it is given, in milliseconds. *)
Inductive HostCall : Type :=
| MessageQueueAlloc (capacity : Z)     (* furi_message_queue_alloc *)
| ViewPortAlloc                        (* view_port_alloc *)
| ViewPortDrawCallbackSet              (* view_port_draw_callback_set *)
| ViewPortInputCallbackSet             (* view_port_input_callback_set *)
| RecordOpen (r : RecordName)          (* furi_record_open *)
| GuiAddViewPort                       (* gui_add_view_port, fullscreen *)
| NotificationMessage (s : Sequence)   (* notification_message *)
| TimerAlloc                           (* furi_timer_alloc, periodic *)
| TimerStart (ms : Z)                  (* furi_timer_start, furi_ms_to_ticks(ms) *)
| MessageQueueGet (e : InputEvent)     (* furi_message_queue_get *)
| TimerStop                            (* furi_timer_stop *)
| TimerFree                            (* furi_timer_free *)
| GuiRemoveViewPort                    (* gui_remove_view_port *)
| ViewPortFree                         (* view_port_free *)
| RecordClose (r : RecordName)         (* furi_record_close *)
| MessageQueueFree.                    (* furi_message_queue_free *)

(** The main thread as the host sees it: the input events that its queue
    will still deliver, in order (those that [input_cb] puts there), and
    the calls made so far, oldest first. *)
Record Host : Type := mkHost {
  pending : list InputEvent;
  calls : list HostCall
}.

(** A run of the main thread either returns, or waits for ever in
    [furi_message_queue_get] on a queue that delivers nothing more. *)
Inductive Run (A : Type) : Type :=
| Done (a : A) (st : Host)
| Waiting (st : Host).

Arguments Done {A} a st.
Arguments Waiting {A} st.

Definition HostM (A : Type) : Type := Host -> Run A.

Definition hret {A : Type} (a : A) : HostM A := fun st => Done a st.

Definition hbind {A B : Type} (m : HostM A) (k : A -> HostM B)
  : HostM B :=
  fun st =>
    match m st with
    | Done a st' => k a st'
    | Waiting st' => Waiting st'
    end.

Declare Scope host_scope.
Delimit Scope host_scope with host.
Notation "m ;; k" := (hbind m (fun _ => k))
  (at level 61, right associativity) : host_scope.

Definition call (hc : HostCall) : HostM unit :=
  fun st => Done tt {| pending := pending st; calls := calls st ++ [hc] |}.

(** The exit test of the loop:
    [event.type == InputTypeShort && event.key == InputKeyBack]. *)
Definition is_exit (event : InputEvent) : bool :=
  match type event, key event with
  | InputTypeShort, InputKeyBack => true
  | _, _ => false
  end.

(** [while(true) { get(&event); if(exit test) break; }] on the events
    still to be delivered: every turn of the loop takes one. *)
Fixpoint event_loop_on (events : list InputEvent) (log : list HostCall)
  : Run unit :=
  match events with
  | [] => Waiting {| pending := []; calls := log |}
  | event :: rest =>
      let log' := log ++ [MessageQueueGet event] in
      if is_exit event
      then Done tt {| pending := rest; calls := log' |}
      else event_loop_on rest log'
  end.

Definition event_loop : HostM unit :=
  fun st => event_loop_on (pending st) (calls st).

Definition bigclock_app : HostM Z :=
  (call (MessageQueueAlloc 8) ;;
   call ViewPortAlloc ;;
   call ViewPortDrawCallbackSet ;;
   call ViewPortInputCallbackSet ;;
   call (RecordOpen RECORD_GUI) ;;
   call GuiAddViewPort ;;
   call (RecordOpen RECORD_NOTIFICATION) ;;
   call (NotificationMessage sequence_display_backlight_enforce_on) ;;
   call TimerAlloc ;;
   call (TimerStart 1000) ;;
   event_loop ;;
   call TimerStop ;;
   call TimerFree ;;
   call GuiRemoveViewPort ;;
   call ViewPortFree ;;
   call (RecordClose RECORD_GUI) ;;
   call MessageQueueFree ;;
   call (NotificationMessage sequence_display_backlight_enforce_auto) ;;
   call (NotificationMessage sequence_reset_display) ;;
   call (RecordClose RECORD_NOTIFICATION) ;;
   hret 0)%host.

(** The application is started with nothing called yet. *)
Definition boot (events : list InputEvent) : Host :=
  {| pending := events; calls := [] |}.

(** ** Vocabulary of the properties of the entry point *)

(** The recorded calls of the entry point before its loop and after
    it. *)
Definition startup : list HostCall :=
  [MessageQueueAlloc 8; ViewPortAlloc; ViewPortDrawCallbackSet;
   ViewPortInputCallbackSet; RecordOpen RECORD_GUI; GuiAddViewPort;
   RecordOpen RECORD_NOTIFICATION;
   NotificationMessage sequence_display_backlight_enforce_on;
   TimerAlloc; TimerStart 1000].

Definition shutdown : list HostCall :=
  [TimerStop; TimerFree; GuiRemoveViewPort; ViewPortFree;
   RecordClose RECORD_GUI; MessageQueueFree;
   NotificationMessage sequence_display_backlight_enforce_auto;
   NotificationMessage sequence_reset_display;
   RecordClose RECORD_NOTIFICATION].

(** The events taken from the queue, in order. *)
Definition events_taken (l : list HostCall) : list InputEvent :=
  flat_map (fun hc => match hc with MessageQueueGet e => [e] | _ => [] end) l.

(** What the application holds of the host at a point of its run. *)
Record Holding : Type := mkHolding {
  queue_live : bool;        (* the message queue is allocated *)
  view_port_live : bool;    (* the view port is allocated *)
  gui_open : bool;          (* the GUI record is open *)
  view_port_shown : bool;   (* the view port is registered with the GUI *)
  notification_open : bool; (* the notification record is open *)
  backlight_forced : bool;  (* the backlight is enforced on *)
  timer_live : bool;        (* the timer is allocated *)
  timer_running : bool      (* the timer is started *)
}.

Definition nothing_held : Holding :=
  mkHolding false false false false false false false false.

Definition all_held : Holding :=
  mkHolding true true true true true true true true.

(** The discipline of the host's resources: a call is allowed when what
    it uses is live, nothing is acquired twice, and nothing is released
    while something else still uses it (the timer's callback uses the
    view port, the view port's input callback uses the queue).  [None]
    when a call breaks the discipline. *)
Definition host_step (s : Holding) (hc : HostCall) : option Holding :=
  let 'mkHolding q vp gui shown notif light tm run := s in
  match hc with
  | MessageQueueAlloc n =>
      if negb q && (0 <? n)
      then Some (mkHolding true vp gui shown notif light tm run) else None
  | ViewPortAlloc =>
      if negb vp
      then Some (mkHolding q true gui shown notif light tm run) else None
  | ViewPortDrawCallbackSet => if vp then Some s else None
  | ViewPortInputCallbackSet => if vp && q then Some s else None
  | RecordOpen RECORD_GUI =>
      if negb gui
      then Some (mkHolding q vp true shown notif light tm run) else None
  | RecordOpen RECORD_NOTIFICATION =>
      if negb notif
      then Some (mkHolding q vp gui shown true light tm run) else None
  | GuiAddViewPort =>
      if gui && vp && negb shown
      then Some (mkHolding q vp gui true notif light tm run) else None
  | NotificationMessage sq =>
      if notif then
        Some (mkHolding q vp gui shown notif
                match sq with
                | sequence_display_backlight_enforce_on => true
                | sequence_display_backlight_enforce_auto => false
                | sequence_reset_display => light
                end tm run)
      else None
  | TimerAlloc =>
      if vp && negb tm
      then Some (mkHolding q vp gui shown notif light true run) else None
  | TimerStart ms =>
      if tm && negb run && (0 <? ms)
      then Some (mkHolding q vp gui shown notif light tm true) else None
  | MessageQueueGet _ => if q then Some s else None
  | TimerStop =>
      if tm
      then Some (mkHolding q vp gui shown notif light tm false) else None
  | TimerFree =>
      if tm && negb run
      then Some (mkHolding q vp gui shown notif light false run) else None
  | GuiRemoveViewPort =>
      if gui && shown
      then Some (mkHolding q vp gui false notif light tm run) else None
  | ViewPortFree =>
      if vp && negb shown && negb tm
      then Some (mkHolding q false gui shown notif light tm run) else None
  | RecordClose RECORD_GUI =>
      if gui && negb shown
      then Some (mkHolding q vp false shown notif light tm run) else None
  | RecordClose RECORD_NOTIFICATION =>
      if notif
      then Some (mkHolding q vp gui shown false light tm run) else None
  | MessageQueueFree =>
      if q && negb vp
      then Some (mkHolding false vp gui shown notif light tm run) else None
  end.

Fixpoint host_steps (s : Holding) (l : list HostCall) : option Holding :=
  match l with
  | [] => Some s
  | hc :: l' =>
      match host_step s hc with
      | Some s' => host_steps s' l'
      | None => None
      end
  end.

(** * Properties *)

Section Traces.

Lemma apply_ops_app c a b :
  apply_ops c (a ++ b) = apply_ops (apply_ops c a) b.
Proof. unfold apply_ops. apply fold_left_app. Qed.

Lemma trace_apply_ops ops : forall c,
  trace (apply_ops c ops) = trace c ++ ops.
Proof.
  induction ops as [|op ops IH]; intros c; simpl.
  - now rewrite app_nil_r.
  - rewrite IH. simpl. now rewrite <- app_assoc.
Qed.

Lemma font_apply_ops_snoc c ops f :
  font (apply_ops c (ops ++ [OpSetFont f])) = f.
Proof. rewrite apply_ops_app. reflexivity. Qed.

Lemma emits_ret : emits (ret tt) [].
Proof. intros c. reflexivity. Qed.

Lemma emits_seq m k a b :
  emits m a -> emits k b -> emits (m ;; k) (a ++ b).
Proof.
  intros Hm Hk c. unfold bind. rewrite Hm, Hk.
  now rewrite apply_ops_app.
Qed.

Lemma emits_box x y w h : emits (canvas_draw_box x y w h) [OpBox x y w h].
Proof. intros c. reflexivity. Qed.

Lemma emits_frame x y w h :
  emits (canvas_draw_frame x y w h) [OpFrame x y w h].
Proof. intros c. reflexivity. Qed.

Lemma emits_str x y s : emits (canvas_draw_str x y s) [OpStr x y s].
Proof. intros c. reflexivity. Qed.

Lemma emits_set_font f : emits (canvas_set_font f) [OpSetFont f].
Proof. intros c. reflexivity. Qed.

Lemma emits_when b s ops :
  emits s ops -> emits (when b s) (if b then ops else []).
Proof. destruct b; simpl; [trivial | intros _; apply emits_ret]. Qed.

Lemma emits_ext m a b : emits m a -> a = b -> emits m b.
Proof. now intros H <-. Qed.

End Traces.

Create HintDb emits.
#[local] Hint Resolve emits_ret emits_box emits_frame emits_str
  emits_set_font : emits.

Section Loops.

Variable body : Z -> M unit.
Variable f : Z -> DrawOp.
Hypothesis body_emits : forall j, emits (body j) [f j].

(** A [for] loop within its bound runs its body for [i, ..., count-1]. *)
Lemma for_lt_emits fuel : forall i count,
  (Z.to_nat (count - i) <= fuel)%nat ->
  emits (for_lt fuel i count body)
        (map f (zrange i (Z.to_nat (count - i)))).
Proof.
  induction fuel as [|fuel IH]; intros i count Hfuel.
  - assert (E : Z.to_nat (count - i) = 0%nat) by lia.
    rewrite E. simpl.
    destruct (Z.ltb_spec i count); [lia | apply emits_ret].
  - simpl. destruct (Z.ltb_spec i count) as [Hlt | Hge].
    + assert (E : Z.to_nat (count - i) = S (Z.to_nat (count - (i + 1))))
        by lia.
      rewrite E. simpl.
      apply (emits_seq _ _ [f i]); [apply body_emits |].
      apply IH. lia.
    + assert (E : Z.to_nat (count - i) = 0%nat) by lia.
      rewrite E. apply emits_ret.
Qed.

End Loops.

Section Segdigit.

Lemma digit_cases d :
  0 <= d <= 9 ->
  d = 0 \/ d = 1 \/ d = 2 \/ d = 3 \/ d = 4 \/
  d = 5 \/ d = 6 \/ d = 7 \/ d = 8 \/ d = 9.
Proof. lia. Qed.

Lemma segmap_at_in_range d :
  0 <= d <= 9 -> exists m, segmap_at d = Some m.
Proof.
  intros H. apply digit_cases in H.
  repeat (destruct H as [-> | H]); try subst d; eexists; reflexivity.
Qed.

Lemma segmap_at_out_of_range d :
  d < 0 \/ d > 9 -> segmap_at d = None.
Proof.
  intros H. unfold segmap_at.
  destruct (Z.ltb_spec d 0) as [_ | Hd]; [reflexivity |].
  apply nth_error_None. simpl. lia.
Qed.

Lemma guard_false d : 0 <= d <= 9 -> (d <? 0) || (d >? 9) = false.
Proof. intros H. apply orb_false_iff. split; lia. Qed.

Lemma guard_true d : d < 0 \/ d > 9 -> (d <? 0) || (d >? 9) = true.
Proof. intros H. apply orb_true_iff. lia. Qed.

(** The body of [segdigit] once the mask is read. *)
Lemma segdigit_body_emits x y w h t m :
  emits
    (when (lit m 0) (canvas_draw_box x y w t) ;;
     when (lit m 6)
       (canvas_draw_box x (y + Z.quot h 2 - Z.quot t 2) w t) ;;
     when (lit m 3) (canvas_draw_box x (y + h - t) w t) ;;
     when (lit m 5) (canvas_draw_box x y t (Z.quot h 2)) ;;
     when (lit m 1) (canvas_draw_box (x + w - t) y t (Z.quot h 2)) ;;
     when (lit m 4)
       (canvas_draw_box x (y + h - Z.quot h 2) t (Z.quot h 2)) ;;
     when (lit m 2)
       (canvas_draw_box (x + w - t) (y + h - Z.quot h 2) t (Z.quot h 2)))
    (map (seg_box x y w h t) (lit_segments m)).
Proof.
  eapply emits_ext.
  - repeat (apply emits_seq; [apply emits_when; apply emits_box |]).
    apply emits_when; apply emits_box.
  - unfold lit_segments, draw_order. simpl.
    destruct (lit m 0), (lit m 6), (lit m 3), (lit m 5),
             (lit m 1), (lit m 4), (lit m 2); reflexivity.
Qed.

Lemma segdigit_emits x y w h t d :
  emits (segdigit x y w h t d) (segdigit_ops x y w h t d).
Proof.
  unfold segdigit, segdigit_ops.
  destruct (Z_le_dec 0 d) as [H0 | H0];
    [destruct (Z_le_dec d 9) as [H9 | H9] |].
  - rewrite guard_false by lia.
    destruct (segmap_at_in_range d) as [m Hm]; [lia |].
    rewrite Hm. intros c. unfold bind at 1, read_segmap.
    rewrite Hm. simpl. apply segdigit_body_emits.
  - rewrite guard_true, segmap_at_out_of_range by lia. apply emits_ret.
  - rewrite guard_true, segmap_at_out_of_range by lia. apply emits_ret.
Qed.

End Segdigit.

Section Frame.

Lemma draw_colon_emits x y t :
  emits (draw_colon x y t) [OpBox x (y + 16) t t; OpBox x (y + 40) t t].
Proof.
  unfold draw_colon.
  apply (emits_seq _ _ [_] [_]); auto with emits.
Qed.

Lemma progress_count_le sec : progress_count sec <= steps.
Proof.
  unfold progress_count.
  destruct (Z.gtb_spec (Z.quot sec 10) steps); lia.
Qed.

Lemma progress_emits L sec :
  emits
    (for_lt (Z.to_nat steps) 0 (progress_count sec)
       (fun i =>
          canvas_draw_frame
            (right_edge L + Z.quot (bar_area_w L - bar_w) 2)
            (by_ + i * (bar_h + bar_gap)) bar_w bar_h))
    (progress_ops L sec).
Proof.
  unfold progress_ops.
  replace (progress_count sec) with (progress_count sec - 0) at 2 by lia.
  apply (for_lt_emits _ (progress_frame L)).
  - intros j. auto with emits.
  - pose proof (progress_count_le sec). lia.
Qed.

Lemma meridiem_emits L H24 :
  emits
    (canvas_set_font FontKeyboard ;;
     when (negb (H24 >=? 12))
       (canvas_draw_str (right_edge L + 1)
          (by_ + (steps * bar_h + (steps - 1) * bar_gap) + 2 + 7) "AM") ;;
     when (H24 >=? 12)
       (canvas_draw_str (right_edge L + 1)
          (by_ + (steps * bar_h + (steps - 1) * bar_gap) + 2 + 15) "PM") ;;
     canvas_set_font FontPrimary)
    (meridiem_ops L H24).
Proof.
  eapply emits_ext.
  - repeat (apply emits_seq; [auto using emits_when with emits |]).
    auto with emits.
  - unfold meridiem_ops, meridiem_label.
    destruct (H24 >=? 12); reflexivity.
Qed.

Lemma digits_emits L dt :
  emits
    (if xM1 L + lay_w L <=? right_edge L then
       segdigit (xH0 L) (lay_y L) (lay_w L) (lay_h L) (lay_t L)
         (hour_tens (hour12 (hour dt))) ;;
       segdigit (xH1 L) (lay_y L) (lay_w L) (lay_h L) (lay_t L)
         (Z.rem (hour12 (hour dt)) 10) ;;
       draw_colon (cx L) (lay_y L) (colon_w L) ;;
       segdigit (xM0 L) (lay_y L) (lay_w L) (lay_h L) (lay_t L)
         (Z.quot (minute dt) 10) ;;
       segdigit (xM1 L) (lay_y L) (lay_w L) (lay_h L) (lay_t L)
         (Z.rem (minute dt) 10)
     else canvas_draw_box 0 0 3 3)
    (digit_ops L dt).
Proof.
  unfold digit_ops, fits.
  destruct (xM1 L + lay_w L <=? right_edge L).
  - repeat (apply emits_seq;
            [first [apply segdigit_emits | apply draw_colon_emits] |]).
    apply segdigit_emits.
  - apply emits_box.
Qed.

(** The whole callback: digits (or the marker), then the progress
    column, then the meridiem label between the two font changes. *)
Lemma draw_cb_with_emits L dt :
  emits (draw_cb_with L dt) (frame_ops L dt).
Proof.
  unfold draw_cb_with, frame_ops.
  apply emits_seq; [apply digits_emits |].
  apply emits_seq; [apply progress_emits |].
  apply meridiem_emits.
Qed.

(** The callback returns normally from every canvas, and appends
    [frame_ops] to the record of calls. *)
Lemma draw_cb_with_runs L dt c :
  exists c',
    draw_cb_with L dt c = Ok (tt, c')
    /\ trace c' = trace c ++ frame_ops L dt
    /\ font c' = FontPrimary.
Proof.
  exists (apply_ops c (frame_ops L dt)).
  split; [apply draw_cb_with_emits |].
  split; [apply trace_apply_ops |].
  unfold frame_ops, meridiem_ops.
  rewrite !app_assoc.
  change [OpSetFont FontKeyboard; meridiem_label L (hour dt);
          OpSetFont FontPrimary]
    with ([OpSetFont FontKeyboard; meridiem_label L (hour dt)]
          ++ [OpSetFont FontPrimary]).
  rewrite !app_assoc. apply font_apply_ops_snoc.
Qed.

End Frame.

Section ShippedFrame.

Lemma frame_ops_shipped dt :
  frame_ops shipped dt =
  clock_face (hour_tens (hour12 (hour dt))) (Z.rem (hour12 (hour dt)) 10)
             (Z.quot (minute dt) 10) (Z.rem (minute dt) 10)
             (progress_count (second dt)) (hour dt >=? 12).
Proof.
  unfold frame_ops, clock_face, face_drawing, face_label, digit_ops,
    progress_ops, meridiem_ops, meridiem_label.
  change (fits shipped) with true. cbv iota.
  rewrite <- !app_assoc.
  repeat f_equal.
Qed.

(** One frame of the shipped clock: the callback returns normally, adds
    the clock face of the time sample to the record of calls and leaves
    [FontPrimary] selected. *)
Lemma draw_cb_runs dt c :
  exists c',
    draw_cb dt c = Ok (tt, c')
    /\ trace c' =
       trace c ++
       clock_face (hour_tens (hour12 (hour dt)))
                  (Z.rem (hour12 (hour dt)) 10)
                  (Z.quot (minute dt) 10) (Z.rem (minute dt) 10)
                  (progress_count (second dt)) (hour dt >=? 12)
    /\ font c' = FontPrimary.
Proof.
  destruct (draw_cb_with_runs shipped dt c) as (c' & Hrun & Htr & Hf).
  exists c'. rewrite <- frame_ops_shipped. auto.
Qed.

End ShippedFrame.

(** ** Concrete frames *)

(** The glyph of 1 in the hour-tens box: the two right-hand segments. *)
Example glyph_one :
  segdigit 2 2 23 60 7 1 blank_canvas
  = Ok (tt, {| trace := [OpBox 18 2 7 30; OpBox 18 32 7 30];
               font := FontSecondary |}).
Proof. reflexivity. Qed.

(** 09:05:37: no hour-tens digit, then 9, the colon, 0 and 5, three
    progress boxes, AM. *)
Example frame_09_05_37 :
  draw_cb (mkDateTime 9 5 37) blank_canvas
  = Ok (tt, {| trace := clock_face blank 9 0 5 3 false;
               font := FontPrimary |}).
Proof. reflexivity. Qed.

(** 00:00:00 shows 12:00, no progress box, AM. *)
Example frame_00_00_00 :
  draw_cb (mkDateTime 0 0 0) blank_canvas
  = Ok (tt, {| trace := clock_face 1 2 0 0 0 false; font := FontPrimary |}).
Proof. reflexivity. Qed.

(** 15:47:52 shows 3:47, five progress boxes, PM. *)
Example frame_15_47_52 :
  draw_cb (mkDateTime 15 47 52) blank_canvas
  = Ok (tt, {| trace := clock_face blank 3 4 7 5 true; font := FontPrimary |}).
Proof. reflexivity. Qed.

(** On a canvas too narrow for the digits, the marker replaces them. *)
Example frame_narrow :
  draw_cb_with narrow (mkDateTime 9 5 37) blank_canvas
  = Ok (tt, {| trace := [OpBox 0 0 3 3;
                         OpFrame 89 2 6 8; OpFrame 89 11 6 8;
                         OpFrame 89 20 6 8;
                         OpSetFont FontKeyboard; OpStr 87 55 "AM";
                         OpSetFont FontPrimary];
               font := FontPrimary |}).
Proof. reflexivity. Qed.

(** ** The segment table *)

Ltac segment_cases :=
  let s := fresh "s" in
  intros s; destruct s; vm_compute;
  intuition (try discriminate; try congruence).

(** C1.  For every digit d in 0..9 the table entry [segmap[d]] is the
    canonical seven-segment pattern of d: it is the mask with exactly the
    bits of the canonical segments set, so a segment tests as lit exactly
    when the traditional alphabet lights it.  In particular the entry of 0
    lights every segment but the middle one, the entry of 1 lights only
    the upper-right and lower-right segments, and the entry of 8 lights
    all seven. *)
Theorem segmap_canonical (d : Z) :
  0 <= d <= 9 ->
  exists m,
    segmap_at d = Some m
    /\ m = mask_of (canonical_segments d)
    /\ (forall s, lit m (seg_bit s) = true <-> In s (canonical_segments d))
    /\ (d = 0 -> forall s, lit m (seg_bit s) = true <-> s <> SegG)
    /\ (d = 1 -> forall s,
          lit m (seg_bit s) = true <-> s = SegB \/ s = SegC)
    /\ (d = 8 -> forall s, lit m (seg_bit s) = true).
Proof.
  intros H. apply digit_cases in H.
  repeat (destruct H as [-> | H]); try subst d;
    (eexists; split; [reflexivity |]; split; [reflexivity |];
     split; [segment_cases |];
     (split; [| split]); intros E; try discriminate E; segment_cases).
Qed.

Lemma segmap_canonical_witness :
  0 <= 4 <= 9 /\
  exists m,
    segmap_at 4 = Some m
    /\ m = mask_of (canonical_segments 4)
    /\ (forall s, lit m (seg_bit s) = true <-> In s (canonical_segments 4))
    /\ (4 = 0 -> forall s, lit m (seg_bit s) = true <-> s <> SegG)
    /\ (4 = 1 -> forall s,
          lit m (seg_bit s) = true <-> s = SegB \/ s = SegC)
    /\ (4 = 8 -> forall s, lit m (seg_bit s) = true).
Proof. split; [lia | apply (segmap_canonical 4); lia]. Defined.

(** ** The hour field *)

Lemma hour12_cases H24 :
  0 <= H24 <= 23 ->
  hour12 H24 = (if (H24 =? 0) || (H24 =? 12) then 12 else Z.rem H24 12)
  /\ 1 <= hour12 H24 <= 12.
Proof.
  intros H. unfold hour12.
  destruct (Z.eqb_spec (Z.rem H24 12) 0) as [E | E];
    destruct (Z.eqb_spec H24 0) as [E0 | E0];
    destruct (Z.eqb_spec H24 12) as [E12 | E12]; simpl;
    Z.to_euclidean_division_equations; lia.
Qed.

(** The two hour digits read the 12-hour value in decimal. *)
Lemma hour_digits_value H12 :
  1 <= H12 <= 12 ->
  10 * (if hour_tens H12 =? blank then 0 else hour_tens H12)
  + Z.rem H12 10 = H12.
Proof.
  intros H. unfold hour_tens, blank.
  destruct (Z.eqb_spec (Z.quot H12 10) 0) as [E | E].
  - change (-1 =? -1) with true. cbv iota.
    Z.to_euclidean_division_equations; lia.
  - destruct (Z.eqb_spec (Z.quot H12 10) (-1));
      Z.to_euclidean_division_equations; lia.
Qed.

(** C2.  For every hour24 in [0,23] the 12-hour value shown is 12 when
    hour24 is 0 or 12 and hour24 % 12 otherwise: the frame drawn is the
    clock face whose hour digits are the tens digit (blank below 10) and
    the ones digit of that value, and they read it in decimal (0 and 12
    read 12, 13 reads 1, 23 reads 11). *)
Theorem hour12_displayed (dt : DateTime) (c : Canvas) :
  0 <= hour dt <= 23 ->
  let shown :=
    if (hour dt =? 0) || (hour dt =? 12) then 12 else Z.rem (hour dt) 12 in
  hour12 (hour dt) = shown
  /\ (exists c',
        draw_cb dt c = Ok (tt, c')
        /\ trace c' =
           trace c ++
           clock_face (hour_tens shown) (Z.rem shown 10)
                      (Z.quot (minute dt) 10) (Z.rem (minute dt) 10)
                      (progress_count (second dt)) (hour dt >=? 12))
  /\ (hour_tens shown = blank \/ hour_tens shown = 1)
  /\ 0 <= Z.rem shown 10 <= 9
  /\ 10 * (if hour_tens shown =? blank then 0 else hour_tens shown)
     + Z.rem shown 10 = shown
  /\ hour12 0 = 12 /\ hour12 12 = 12 /\ hour12 13 = 1 /\ hour12 23 = 11.
Proof.
  intros H shown.
  destruct (hour12_cases (hour dt) H) as [E R].
  fold shown in E. rewrite E in R.
  split; [exact E |]. split.
  { destruct (draw_cb_runs dt c) as (c' & Hrun & Htr & _).
    exists c'. split; [exact Hrun |]. rewrite <- E. exact Htr. }
  split.
  { unfold hour_tens.
    destruct (Z.eqb_spec (Z.quot shown 10) 0); [now left | right].
    Z.to_euclidean_division_equations; lia. }
  split; [Z.to_euclidean_division_equations; lia |].
  split; [now apply hour_digits_value | repeat split].
Qed.

Lemma hour12_displayed_witness :
  0 <= hour (mkDateTime 13 5 37) <= 23
  /\ hour12 (hour (mkDateTime 13 5 37)) = 1.
Proof.
  split; [simpl; lia |].
  apply (hour12_displayed (mkDateTime 13 5 37) blank_canvas). simpl; lia.
Defined.

(** C3.  For every hour24 in [0,23] the hour-tens digit handed to the
    digit renderer is the blank sentinel exactly when the 12-hour value is
    1..9, that is when hour12 / 10 is 0, and the digit 1 exactly when the
    12-hour value is 10, 11 or 12; so it is blank for hour24 in 1..9 and
    13..21, and 1 for hour24 in 0, 10, 11, 12, 22, 23. *)
Theorem hour_tens_blanking (dt : DateTime) (c : Canvas) :
  0 <= hour dt <= 23 ->
  let H12 := hour12 (hour dt) in
  let ht := hour_tens H12 in
  (exists c' ho mt mo n pm,
     draw_cb dt c = Ok (tt, c')
     /\ trace c' = trace c ++ clock_face ht ho mt mo n pm)
  /\ (ht = blank <-> 1 <= H12 <= 9)
  /\ (ht = blank <-> Z.quot H12 10 = 0)
  /\ (ht = 1 <-> 10 <= H12 <= 12)
  /\ (ht = blank <-> 1 <= hour dt <= 9 \/ 13 <= hour dt <= 21)
  /\ (ht = 1 <->
      hour dt = 0 \/ 10 <= hour dt <= 12 \/ 22 <= hour dt <= 23).
Proof.
  intros H H12 ht.
  split.
  { destruct (draw_cb_runs dt c) as (c' & Hrun & Htr & _).
    exists c'. do 5 eexists. split; [exact Hrun | exact Htr]. }
  destruct (hour12_cases (hour dt) H) as [E R].
  fold H12 in E, R.
  assert (Hq : Z.quot H12 10 = 0 \/ Z.quot H12 10 = 1)
    by (Z.to_euclidean_division_equations; lia).
  assert (Hshown : (H12 = 12 /\ (hour dt = 0 \/ hour dt = 12))
                   \/ (H12 = Z.rem (hour dt) 12
                       /\ hour dt <> 0 /\ hour dt <> 12)).
  { rewrite E.
    destruct (Z.eqb_spec (hour dt) 0); destruct (Z.eqb_spec (hour dt) 12);
      simpl; lia. }
  unfold ht, hour_tens, blank.
  destruct (Z.eqb_spec (Z.quot H12 10) 0) as [E0 | E0];
    repeat split; intros; Z.to_euclidean_division_equations; lia.
Qed.

Lemma hour_tens_blanking_witness :
  0 <= hour (mkDateTime 22 47 52) <= 23
  /\ hour_tens (hour12 (hour (mkDateTime 22 47 52))) = 1.
Proof.
  split; [simpl; lia |].
  apply (hour_tens_blanking (mkDateTime 22 47 52) blank_canvas);
    simpl; lia.
Defined.

(** ** Sorting the calls of a frame by kind *)

Section Kinds.

Variable p : DrawOp -> bool.

Lemma filter_none (l : list DrawOp) :
  (forall op, In op l -> p op = false) -> filter p l = [].
Proof.
  induction l as [|a l IH]; intros H; simpl; [reflexivity |].
  rewrite (H a (or_introl eq_refl)). apply IH.
  intros op Hop. apply H. now right.
Qed.

Lemma filter_all (l : list DrawOp) :
  (forall op, In op l -> p op = true) -> filter p l = l.
Proof.
  induction l as [|a l IH]; intros H; simpl; [reflexivity |].
  rewrite (H a (or_introl eq_refl)). f_equal. apply IH.
  intros op Hop. apply H. now right.
Qed.

End Kinds.

Lemma segdigit_ops_are_boxes x y w h t d op :
  In op (segdigit_ops x y w h t d) ->
  exists s, op = seg_box x y w h t s.
Proof.
  unfold segdigit_ops. destruct (segmap_at d); [| intros []].
  intros H. apply in_map_iff in H. destruct H as (s & <- & _).
  now exists s.
Qed.

Lemma seg_box_is_box x y w h t s : is_box (seg_box x y w h t s) = true.
Proof. destruct s; reflexivity. Qed.

Lemma length_zrange n : forall i, List.length (zrange i n) = n.
Proof. induction n; intros i; simpl; [| rewrite IHn]; reflexivity. Qed.

Lemma in_zrange n : forall i j, In j (zrange i n) -> i <= j < i + Z.of_nat n.
Proof.
  induction n as [|n IH]; intros i j H; simpl in H; [contradiction |].
  destruct H as [<- | H]; [lia |]. apply IH in H. lia.
Qed.

(** A filter that keeps no box drops all the digits of the face. *)
Lemma filter_segdigit_ops p x y w h t d :
  (forall op, is_box op = true -> p op = false) ->
  filter p (segdigit_ops x y w h t d) = [].
Proof.
  intros Hp. apply filter_none. intros op Hop.
  apply segdigit_ops_are_boxes in Hop. destruct Hop as [s ->].
  apply Hp, seg_box_is_box.
Qed.

Lemma frames_of_face ht ho mt mo n pm :
  filter is_frame (clock_face ht ho mt mo n pm) =
  map (fun i => OpFrame 117 (2 + i * 9) 6 8) (zrange 0 (Z.to_nat n)).
Proof.
  unfold clock_face, face_drawing, face_label. rewrite !filter_app.
  rewrite !filter_segdigit_ops by (intros [] ; simpl; congruence).
  destruct pm; cbn [filter is_frame app]; rewrite filter_all, app_nil_r;
    trivial; intros op Hop; apply in_map_iff in Hop;
    destruct Hop as (i & <- & _); reflexivity.
Qed.

Lemma strings_of_face ht ho mt mo n pm :
  filter is_str (clock_face ht ho mt mo n pm) = [face_label pm].
Proof.
  unfold clock_face, face_drawing, face_label. rewrite !filter_app.
  rewrite !filter_segdigit_ops by (intros [] ; simpl; congruence).
  destruct pm; cbn [filter is_str app]; rewrite filter_none;
    trivial; intros op Hop; apply in_map_iff in Hop;
    destruct Hop as (i & <- & _); reflexivity.
Qed.

(** ** The progress column *)

(** C4.  The progress column of a frame is exactly [second / 10]
    (truncating, capped at 5) outlines, drawn with [canvas_draw_frame] and
    stacked from y = 2 every 9 rows (8 rows of box, 1 row of gap): no box
    for second 0 and 9, one for 10, five for 59, second / 10 of them for
    every second in [0,59], and never more than five whatever the clock
    returns. *)
Theorem progress_boxes (dt : DateTime) (c : Canvas) :
  exists c' new,
    draw_cb dt c = Ok (tt, c')
    /\ trace c' = trace c ++ new
    /\ filter is_frame new =
       map (fun i => OpFrame 117 (2 + i * (8 + 1)) 6 8)
           (zrange 0 (Z.to_nat (progress_count (second dt))))
    /\ (List.length (filter is_frame new) <= 5)%nat
    /\ (0 <= second dt <= 59 ->
        Z.of_nat (List.length (filter is_frame new)) = Z.quot (second dt) 10)
    /\ progress_count 0 = 0 /\ progress_count 9 = 0
    /\ progress_count 10 = 1 /\ progress_count 59 = 5.
Proof.
  destruct (draw_cb_runs dt c) as (c' & Hrun & Htr & _).
  exists c'. eexists. split; [exact Hrun |]. split; [exact Htr |].
  rewrite frames_of_face, length_map, length_zrange.
  pose proof (progress_count_le (second dt)) as Hle. unfold steps in Hle.
  split; [reflexivity |]. split; [lia |].
  split; [| repeat split].
  intros Hs. unfold progress_count, steps.
  destruct (Z.gtb_spec (Z.quot (second dt) 10) 5);
    Z.to_euclidean_division_equations; lia.
Qed.

Lemma progress_boxes_witness :
  0 <= second (mkDateTime 9 5 37) <= 59
  /\ exists c' new,
       draw_cb (mkDateTime 9 5 37) blank_canvas = Ok (tt, c')
       /\ trace c' = trace blank_canvas ++ new
       /\ Z.of_nat (List.length (filter is_frame new)) = 3.
Proof.
  split; [simpl; lia |].
  destruct (progress_boxes (mkDateTime 9 5 37) blank_canvas)
    as (c' & new & Hrun & Htr & _ & _ & Hn & _).
  exists c', new. split; [exact Hrun |]. split; [exact Htr |].
  apply Hn. simpl; lia.
Defined.

(** ** The meridiem label *)

(** C5.  In every frame [is_pm] is [hour24 >= 12] and exactly one text is
    drawn: "AM" at (115, 55) when hour24 is below 12 (so for 0 and 11),
    "PM" at (115, 63) when hour24 is 12 or more (so for 12 and 23); the
    two positions differ, and no frame has both texts or neither. *)
Theorem meridiem_exclusive (dt : DateTime) (c : Canvas) :
  exists c' new,
    draw_cb dt c = Ok (tt, c')
    /\ trace c' = trace c ++ new
    /\ (hour dt < 12 -> filter is_str new = [OpStr 115 55 "AM"])
    /\ (12 <= hour dt -> filter is_str new = [OpStr 115 63 "PM"])
    /\ List.length (filter is_str new) = 1%nat.
Proof.
  destruct (draw_cb_runs dt c) as (c' & Hrun & Htr & _).
  exists c'. eexists. split; [exact Hrun |]. split; [exact Htr |].
  rewrite strings_of_face.
  destruct (Z.geb_spec (hour dt) 12); repeat split; intros; trivial; lia.
Qed.

Lemma meridiem_exclusive_witness :
  hour (mkDateTime 11 59 59) < 12 /\ 12 <= hour (mkDateTime 12 0 0)
  /\ (exists c' new,
        draw_cb (mkDateTime 11 59 59) blank_canvas = Ok (tt, c')
        /\ trace c' = trace blank_canvas ++ new
        /\ filter is_str new = [OpStr 115 55 "AM"])
  /\ (exists c' new,
        draw_cb (mkDateTime 12 0 0) blank_canvas = Ok (tt, c')
        /\ trace c' = trace blank_canvas ++ new
        /\ filter is_str new = [OpStr 115 63 "PM"]).
Proof.
  split; [simpl; lia |]. split; [simpl; lia |]. split.
  - destruct (meridiem_exclusive (mkDateTime 11 59 59) blank_canvas)
      as (c' & new & Hrun & Htr & Ham & _).
    exists c', new. split; [exact Hrun |]. split; [exact Htr |].
    apply Ham. simpl; lia.
  - destruct (meridiem_exclusive (mkDateTime 12 0 0) blank_canvas)
      as (c' & new & Hrun & Htr & _ & Hpm & _).
    exists c', new. split; [exact Hrun |]. split; [exact Htr |].
    apply Hpm. simpl; lia.
Defined.

(** ** The layout guard *)

Lemma boxes_of_progress L sec : filter is_box (progress_ops L sec) = [].
Proof.
  apply filter_none. intros op Hop. apply in_map_iff in Hop.
  destruct Hop as (i & <- & _). reflexivity.
Qed.

Lemma boxes_of_meridiem L H24 : filter is_box (meridiem_ops L H24) = [].
Proof.
  unfold meridiem_ops, meridiem_label. destruct (H24 >=? 12); reflexivity.
Qed.

(** No call of the shipped clock face is the fallback marker. *)
Lemma face_without_marker ht ho mt mo n pm :
  ~ In (OpBox 0 0 3 3) (clock_face ht ho mt mo n pm).
Proof.
  unfold clock_face, face_drawing, face_label. intros H.
  repeat (apply in_app_or in H; destruct H as [H | H]);
    try (apply segdigit_ops_are_boxes in H; destruct H as [s E];
         destruct s; vm_compute in E; discriminate E).
  - destruct H as [E | [E | []]]; discriminate E.
  - apply in_map_iff in H. destruct H as (i & E & _). discriminate E.
  - destruct pm; destruct H as [E | [E | [E | []]]]; discriminate E.
Qed.

(** C6.  When the fit check fails, that is when the right edge
    [xM1 + w] of the minute-ones box exceeds the left edge of the gutter,
    the frame has one filled rectangle only, the 3x3 square at the canvas
    origin, drawn first: no digit box and no colon.  With the shipped
    constants the right edge of the minute-ones box (110) is strictly left
    of the gutter (114), and the frame is the clock face with its four
    digit boxes and the colon, without the marker. *)
Theorem layout_guard (L : Layout) (dt : DateTime) (c : Canvas) :
  (xM1 L + lay_w L > right_edge L ->
   exists c' rest,
     draw_cb_with L dt c = Ok (tt, c')
     /\ trace c' = trace c ++ OpBox 0 0 3 3 :: rest
     /\ filter is_box rest = [])
  /\ xM1 shipped + lay_w shipped < right_edge shipped
  /\ (exists c' ht ho mt mo n pm,
        draw_cb dt c = Ok (tt, c')
        /\ trace c' = trace c ++ clock_face ht ho mt mo n pm
        /\ ~ In (OpBox 0 0 3 3) (clock_face ht ho mt mo n pm)).
Proof.
  split; [| split].
  - intros Hover.
    destruct (draw_cb_with_runs L dt c) as (c' & Hrun & Htr & _).
    exists c', (progress_ops L (second dt) ++ meridiem_ops L (hour dt)).
    split; [exact Hrun |]. split.
    + rewrite Htr. unfold frame_ops, digit_ops, fits.
      destruct (Z.leb_spec (xM1 L + lay_w L) (right_edge L));
        [lia | reflexivity].
    + now rewrite filter_app, boxes_of_progress, boxes_of_meridiem.
  - vm_compute. reflexivity.
  - destruct (draw_cb_runs dt c) as (c' & Hrun & Htr & _).
    exists c'. do 6 eexists.
    split; [exact Hrun |]. split; [exact Htr |].
    apply face_without_marker.
Qed.

Lemma layout_guard_witness :
  xM1 narrow + lay_w narrow > right_edge narrow
  /\ exists c' rest,
       draw_cb_with narrow (mkDateTime 9 5 37) blank_canvas = Ok (tt, c')
       /\ trace c' = trace blank_canvas ++ OpBox 0 0 3 3 :: rest
       /\ filter is_box rest = [].
Proof.
  split; [vm_compute; reflexivity |].
  apply (layout_guard narrow (mkDateTime 9 5 37) blank_canvas).
  vm_compute; reflexivity.
Defined.

(** ** Digits outside 0..9 *)

(** C8.  For every digit argument d outside [0,9], the blank sentinel -1
    among them, [segdigit] draws nothing and returns the canvas as it
    was.  The read of [segmap] is outside the table exactly for those d,
    and [segdigit] never commits it: for every d it returns normally. *)
Theorem segdigit_out_of_range (x y w h t d : Z) (c : Canvas) :
  (d < 0 \/ d > 9 -> segdigit x y w h t d c = Ok (tt, c))
  /\ segdigit x y w h t blank c = Ok (tt, c)
  /\ (segmap_at d = None <-> d < 0 \/ d > 9)
  /\ (read_segmap d c = Err IndexOutOfBounds <-> d < 0 \/ d > 9)
  /\ (exists c', segdigit x y w h t d c = Ok (tt, c')).
Proof.
  assert (Hnone : segmap_at d = None <-> d < 0 \/ d > 9).
  { split; [| apply segmap_at_out_of_range].
    intros E. destruct (Z_le_dec 0 d); [| lia].
    destruct (Z_le_dec d 9); [| lia].
    destruct (segmap_at_in_range d) as [m Hm]; [lia | congruence]. }
  split; [| split; [| split; [| split]]].
  - intros Hd. unfold segdigit. now rewrite guard_true.
  - reflexivity.
  - exact Hnone.
  - rewrite <- Hnone. unfold read_segmap.
    destruct (segmap_at d); split; intros E; try discriminate; reflexivity.
  - eexists. apply segdigit_emits.
Qed.

Lemma segdigit_out_of_range_witness :
  (10 < 0 \/ 10 > 9)
  /\ segdigit 2 2 23 60 7 10 blank_canvas = Ok (tt, blank_canvas).
Proof.
  split; [right; lia |].
  apply (proj1 (segdigit_out_of_range 2 2 23 60 7 10 blank_canvas)).
  right; lia.
Defined.

(** ** The font *)

(** C10, as the code has it.  Every call of the draw callback returns
    with [FontPrimary] selected, whatever font was selected on entry: the
    frame ends with the selection of [FontKeyboard], the AM/PM text and
    the selection of [FontPrimary], and no other font change occurs in
    it.  The font on entry is not saved: a frame leaves the font as it
    found it exactly when that font was [FontPrimary]. *)
Theorem font_primary_on_return (dt : DateTime) (c : Canvas) :
  exists c' before label,
    draw_cb dt c = Ok (tt, c')
    /\ font c' = FontPrimary
    /\ trace c' =
       trace c ++ before
       ++ [OpSetFont FontKeyboard; label; OpSetFont FontPrimary]
    /\ is_str label = true
    /\ filter is_set_font before = []
    /\ (font c' = font c <-> font c = FontPrimary).
Proof.
  destruct (draw_cb_runs dt c) as (c' & Hrun & Htr & Hfont).
  exists c'. eexists (face_drawing _ _ _ _ _), (face_label _).
  split; [exact Hrun |]. split; [exact Hfont |].
  split; [exact Htr |].
  split; [unfold face_label; destruct (hour dt >=? 12); reflexivity |].
  split.
  - unfold face_drawing. rewrite !filter_app.
    rewrite !filter_segdigit_ops by (intros []; simpl; congruence).
    cbn [filter is_set_font app].
    apply filter_none. intros op Hop. apply in_map_iff in Hop.
    destruct Hop as (i & <- & _). reflexivity.
  - rewrite Hfont. split; intros E; now symmetry.
Qed.

Lemma font_primary_on_return_witness :
  font (mkCanvas [] FontPrimary) = FontPrimary
  /\ exists c',
       draw_cb (mkDateTime 9 5 37) (mkCanvas [] FontPrimary) = Ok (tt, c')
       /\ font c' = font (mkCanvas [] FontPrimary).
Proof.
  split; [reflexivity |].
  destruct (font_primary_on_return (mkDateTime 9 5 37)
              (mkCanvas [] FontPrimary))
    as (c' & before & label & Hrun & _ & _ & _ & _ & Hiff).
  exists c'. split; [exact Hrun |]. apply Hiff. reflexivity.
Defined.

(** C10 as worded, with the font restored so that no font change escapes
    a frame, fails on a canvas that enters the callback with another
    font: the frame of 00:00:00 drawn with [FontSecondary] selected
    returns with [FontPrimary] selected. *)
Lemma font_change_escapes :
  (exists c',
     draw_cb (mkDateTime 0 0 0) blank_canvas = Ok (tt, c')
     /\ font blank_canvas = FontSecondary
     /\ font c' = FontPrimary)
  /\ ~ font_kept (mkDateTime 0 0 0) blank_canvas.
Proof.
  split.
  - exists {| trace := clock_face 1 2 0 0 0 false; font := FontPrimary |}.
    split; [exact frame_00_00_00 |]. split; reflexivity.
  - intros K.
    specialize (K _ (frame_00_00_00)). simpl in K. discriminate K.
Qed.


(** ** The geometry of a digit *)

Ltac order_goals :=
  repeat match goal with
         | |- _ && _ = true => apply andb_true_intro; split
         | |- (_ <=? _) = true => apply Z.leb_le
         | |- (_ <? _) = true => apply Z.ltb_lt
         end.

Ltac order_hyps :=
  repeat match goal with
         | H : _ && _ = true |- _ => apply andb_prop in H; destruct H
         | H : (_ <=? _) = true |- _ => apply Z.leb_le in H
         | H : (_ <? _) = true |- _ => apply Z.ltb_lt in H
         end.

(** Every segment of a digit stays inside the box of the digit. *)
Lemma seg_box_inside x y w h t s :
  0 <= t <= w -> t <= h ->
  inside x y w h (seg_box x y w h t s) = true.
Proof.
  intros Ht Hh. destruct s; unfold seg_box, inside; order_goals;
    Z.to_euclidean_division_equations; lia.
Qed.

(** What lies inside a region of the canvas lies inside the canvas. *)
Lemma inside_canvas bx by' bw bh op :
  0 <= bx -> 0 <= by' -> bx + bw <= 128 -> by' + bh <= 64 ->
  inside bx by' bw bh op = true -> in_canvas op = true.
Proof.
  intros Hx Hy Hw Hh H. unfold in_canvas.
  destruct op; unfold inside in *; order_hyps; order_goals; lia.
Qed.

Lemma segdigit_ops_in_canvas x y w h t d op :
  0 <= t <= w -> t <= h ->
  0 <= x -> 0 <= y -> x + w <= 128 -> y + h <= 64 ->
  In op (segdigit_ops x y w h t d) -> in_canvas op = true.
Proof.
  intros Ht Hh Hx Hy Hw Hb Hop.
  apply segdigit_ops_are_boxes in Hop. destruct Hop as [s ->].
  apply (inside_canvas x y w h); trivial. now apply seg_box_inside.
Qed.

Lemma face_in_canvas ht ho mt mo n pm op :
  n <= 5 -> In op (clock_face ht ho mt mo n pm) -> in_canvas op = true.
Proof.
  intros Hn H. unfold clock_face, face_drawing, face_label in H.
  repeat (apply in_app_or in H; destruct H as [H | H]);
    try (apply segdigit_ops_in_canvas in H; [exact H | lia ..]).
  - destruct H as [<- | [<- | []]]; reflexivity.
  - apply in_map_iff in H. destruct H as (i & <- & Hi).
    apply in_zrange in Hi.
    unfold in_canvas, inside; order_goals; lia.
  - destruct pm; destruct H as [<- | [<- | [<- | []]]]; reflexivity.
Qed.

Lemma in_canvas_spec op :
  in_canvas op = true ->
  match op with
  | OpBox x y w h | OpFrame x y w h =>
      0 <= x /\ 0 <= y /\ 0 <= w /\ 0 <= h /\ x + w <= 128 /\ y + h <= 64
  | OpStr x y _ => 0 <= x < 128 /\ 0 <= y < 64
  | OpSetFont _ => True
  end.
Proof.
  unfold in_canvas. destruct op; unfold inside; intros H; order_hyps;
    trivial; lia.
Qed.

(** C9.  For every valid time sample, every rectangle, every outline and
    every text origin that the draw callback issues has non-negative
    coordinates and lies within the 128x64 canvas. *)
Theorem frame_in_canvas (dt : DateTime) (c : Canvas) :
  valid_time dt ->
  exists c' new,
    draw_cb dt c = Ok (tt, c')
    /\ trace c' = trace c ++ new
    /\ forallb in_canvas new = true
    /\ forall op, In op new ->
         match op with
         | OpBox x y w h | OpFrame x y w h =>
             0 <= x /\ 0 <= y /\ 0 <= w /\ 0 <= h
             /\ x + w <= 128 /\ y + h <= 64
         | OpStr x y _ => 0 <= x < 128 /\ 0 <= y < 64
         | OpSetFont _ => True
         end.
Proof.
  intros _.
  destruct (draw_cb_runs dt c) as (c' & Hrun & Htr & _).
  exists c'. eexists. split; [exact Hrun |]. split; [exact Htr |].
  pose proof (progress_count_le (second dt)) as Hn. unfold steps in Hn.
  split.
  - apply forallb_forall. intros op Hop.
    now apply face_in_canvas in Hop.
  - intros op Hop. apply in_canvas_spec.
    now apply face_in_canvas in Hop.
Qed.

Lemma frame_in_canvas_witness :
  valid_time (mkDateTime 23 59 59)
  /\ exists c' new,
       draw_cb (mkDateTime 23 59 59) blank_canvas = Ok (tt, c')
       /\ trace c' = trace blank_canvas ++ new
       /\ forallb in_canvas new = true.
Proof.
  assert (V : valid_time (mkDateTime 23 59 59))
    by (unfold valid_time; simpl; lia).
  split; [exact V |].
  destruct (frame_in_canvas (mkDateTime 23 59 59) blank_canvas V)
    as (c' & new & Hrun & Htr & Hin & _).
  exists c', new. auto.
Defined.

Lemma even_halves h : Z.even h = true -> Z.quot h 2 + Z.quot h 2 = h.
Proof.
  intros E. apply Z.even_spec in E. destruct E as [k ->].
  rewrite Z.mul_comm, Z.quot_mul by lia. lia.
Qed.

Lemma odd_halves h :
  0 <= h -> Z.odd h = true -> Z.quot h 2 + Z.quot h 2 + 1 = h.
Proof.
  intros Hh E. apply Z.odd_spec in E. destruct E as [k ->].
  Z.to_euclidean_division_equations; lia.
Qed.

(** C7, as the code has it.  A digit d of 0..9 drawn in a box at (x, y)
    of width w, height h and stroke t is the rectangles of its lit
    segments.  A horizontal segment starts at x, is w wide and t thick;
    the top one starts at y, the bottom one at y + h - t and the middle
    one at y + h/2 - t/2, so that it lies across the centre row y + h/2.
    A vertical segment is t wide and h/2 high (truncating division);
    upper ones start at y, lower ones at y + h - h/2; left ones start at
    x, right ones at x + w - t.  Upper and lower segments never overlap,
    and they meet on the centre row without a gap when h is even, as the
    shipped h = 60 is; when h is odd one row is left between them. *)
Theorem segdigit_geometry (x y w h t d : Z) (c : Canvas) :
  0 <= d <= 9 ->
  let box := seg_box x y w h t in
  (exists m c',
     segmap_at d = Some m
     /\ segdigit x y w h t d c = Ok (tt, c')
     /\ trace c' = trace c ++ map box (lit_segments m))
  /\ box SegA = OpBox x y w t
  /\ box SegG = OpBox x (y + Z.quot h 2 - Z.quot t 2) w t
  /\ box SegD = OpBox x (y + h - t) w t
  /\ box SegF = OpBox x y t (Z.quot h 2)
  /\ box SegB = OpBox (x + w - t) y t (Z.quot h 2)
  /\ box SegE = OpBox x (y + h - Z.quot h 2) t (Z.quot h 2)
  /\ box SegC = OpBox (x + w - t) (y + h - Z.quot h 2) t (Z.quot h 2)
  /\ (0 <= t -> op_top (box SegG) <= y + Z.quot h 2 <= op_bottom (box SegG))
  /\ (0 <= h ->
      op_bottom (box SegF) <= op_top (box SegE)
      /\ op_bottom (box SegB) <= op_top (box SegC)
      /\ op_bottom (box SegE) = y + h /\ op_bottom (box SegC) = y + h)
  /\ (Z.even h = true ->
      halves_meet x y w h t /\ op_bottom (box SegF) = y + Z.quot h 2)
  /\ (0 <= h -> Z.odd h = true ->
      op_top (box SegE) = op_bottom (box SegF) + 1
      /\ op_top (box SegC) = op_bottom (box SegB) + 1).
Proof.
  intros Hd box. split.
  { destruct (segmap_at_in_range d Hd) as [m Hm].
    exists m, (apply_ops c (segdigit_ops x y w h t d)).
    split; [exact Hm |]. split; [apply segdigit_emits |].
    rewrite trace_apply_ops. unfold segdigit_ops. now rewrite Hm. }
  do 7 (split; [reflexivity |]).
  unfold box, halves_meet, abuts. cbn [seg_box op_top op_bottom].
  split; [| split; [| split]].
  - intros Ht. Z.to_euclidean_division_equations; lia.
  - intros Hh. Z.to_euclidean_division_equations; lia.
  - intros E. apply even_halves in E. lia.
  - intros Hh E. apply odd_halves in E; lia.
Qed.

Lemma segdigit_geometry_witness :
  0 <= 8 <= 9 /\ 0 <= 7 /\ 0 <= 60 /\ Z.even 60 = true
  /\ halves_meet 2 2 23 60 7
  /\ op_bottom (seg_box 2 2 23 60 7 SegF) = 32.
Proof.
  split; [lia |]. split; [lia |]. split; [lia |].
  split; [reflexivity |].
  apply (segdigit_geometry 2 2 23 60 7 8 blank_canvas); [lia | reflexivity].
Defined.

(** C7 as worded, with vertical segments that meet for every height, fails
    for an odd height.  The digit 1 in a box 5 rows high with stroke 2 is
    two rectangles of 2 rows each, on rows 0..1 and 3..4: row 2 of the
    right-hand stroke is painted by neither.  (Nor does the upper segment
    end where the middle bar of that box begins: the bar is on rows 1..2.) *)
Lemma segdigit_odd_height_gap :
  segdigit 0 0 5 5 2 1 blank_canvas
  = Ok (tt, {| trace := [OpBox 3 0 2 2; OpBox 3 3 2 2];
               font := FontSecondary |})
  /\ covers (OpBox 3 0 2 2) 3 2 = false
  /\ covers (OpBox 3 3 2 2) 3 2 = false
  /\ ~ abuts (OpBox 3 0 2 2) (OpBox 3 3 2 2)
  /\ ~ abuts (seg_box 0 0 5 5 2 SegB) (seg_box 0 0 5 5 2 SegG)
  /\ ~ meets_at_any_height 0 0 5 5 2 1.
Proof.
  split; [reflexivity |]. split; [reflexivity |]. split; [reflexivity |].
  split; [| split].
  - unfold abuts. simpl. lia.
  - unfold abuts. vm_compute. discriminate.
  - intros (m & _ & _ & Hmeet & _).
    unfold abuts in Hmeet. vm_compute in Hmeet. discriminate Hmeet.
Qed.

(** * Further properties of the drawing code *)

Ltac bools_to_props :=
  repeat match goal with
         | H : _ && _ = true |- _ => apply andb_prop in H; destruct H
         | H : _ || _ = true |- _ => apply orb_prop in H
         | H : (_ <=? _) = true |- _ => apply Z.leb_le in H
         | H : (_ <? _) = true |- _ => apply Z.ltb_lt in H
         end.

(** Filled rectangles, outlines and texts leave the font as it is. *)
Lemma font_apply_ops ops : forall c,
  (forall op, In op ops -> is_set_font op = false) ->
  font (apply_ops c ops) = font c.
Proof.
  induction ops as [|op ops IH]; intros c H; [reflexivity |].
  simpl. rewrite IH by (intros o Ho; apply H; now right).
  pose proof (H op (or_introl eq_refl)) as Hop.
  destruct op; simpl in *; [reflexivity .. | discriminate Hop].
Qed.

Lemma segdigit_ops_keep_font x y w h t d op :
  In op (segdigit_ops x y w h t d) -> is_set_font op = false.
Proof.
  intros H. apply segdigit_ops_are_boxes in H. destruct H as [s ->].
  destruct s; reflexivity.
Qed.

(** A run of [segdigit], spelled out. *)
Lemma segdigit_runs x y w h t d c :
  exists c',
    segdigit x y w h t d c = Ok (tt, c')
    /\ trace c' = trace c ++ segdigit_ops x y w h t d
    /\ font c' = font c.
Proof.
  exists (apply_ops c (segdigit_ops x y w h t d)).
  split; [apply segdigit_emits |].
  split; [apply trace_apply_ops |].
  apply font_apply_ops. intros op. apply segdigit_ops_keep_font.
Qed.

(** X1.  A digit never leaves its box: when the stroke is at most the
    width and the height of the box, every rectangle that [segdigit]
    draws, for whatever digit argument, lies inside the box at (x, y) of
    width w and height h; and [segdigit] leaves the font alone. *)
Theorem segdigit_within_box (x y w h t d : Z) (c : Canvas) :
  0 <= t <= w -> t <= h ->
  exists c' new,
    segdigit x y w h t d c = Ok (tt, c')
    /\ trace c' = trace c ++ new
    /\ font c' = font c
    /\ forallb (inside x y w h) new = true
    /\ forallb is_box new = true.
Proof.
  intros Ht Hh.
  destruct (segdigit_runs x y w h t d c) as (c' & Hrun & Htr & Hf).
  exists c', (segdigit_ops x y w h t d).
  repeat (split; trivial); apply forallb_forall; intros op Hop;
    apply segdigit_ops_are_boxes in Hop; destruct Hop as [s ->].
  - now apply seg_box_inside.
  - apply seg_box_is_box.
Qed.

Lemma segdigit_within_box_witness :
  0 <= 7 <= 23 /\ 7 <= 60
  /\ exists c' new,
       segdigit 87 2 23 60 7 4 blank_canvas = Ok (tt, c')
       /\ trace c' = trace blank_canvas ++ new
       /\ font c' = font blank_canvas
       /\ forallb (inside 87 2 23 60) new = true
       /\ forallb is_box new = true.
Proof.
  split; [lia |]. split; [lia |].
  apply (segdigit_within_box 87 2 23 60 7 4 blank_canvas); lia.
Defined.

(** With a stroke taller than the box the top bar leaves it. *)
Example segdigit_thick_stroke :
  segdigit 0 0 5 3 4 7 blank_canvas
  = Ok (tt, {| trace := [OpBox 0 0 5 4; OpBox 1 0 4 1; OpBox 1 2 4 1];
               font := FontSecondary |}).
Proof. reflexivity. Qed.

Lemma lit_segments_eight : lit_segments (bin7 1 1 1 1 1 1 1) = draw_order.
Proof. reflexivity. Qed.

Lemma lit_segments_zero :
  lit_segments (bin7 0 1 1 1 1 1 1) = [SegA; SegD; SegF; SegB; SegE; SegC].
Proof. reflexivity. Qed.

Lemma painted_eight x y w h t px py :
  on_outline x y w h t px py = true ->
  painted (segdigit_ops x y w h t 8) px py = true.
Proof.
  intros H. unfold on_outline in H.
  change (segdigit_ops x y w h t 8)
    with (map (seg_box x y w h t) draw_order).
  unfold painted, draw_order. cbn [map existsb seg_box covers].
  bools_to_props.
  repeat rewrite orb_true_iff. repeat rewrite andb_true_iff.
  repeat rewrite Z.leb_le. repeat rewrite Z.ltb_lt.
  Z.to_euclidean_division_equations. lia.
Qed.

Lemma painted_zero x y w h t px py :
  Z.even h = true ->
  on_outline x y w h t px py = true ->
  painted (segdigit_ops x y w h t 0) px py = true.
Proof.
  intros E H. unfold on_outline in H. apply even_halves in E.
  change (segdigit_ops x y w h t 0)
    with (map (seg_box x y w h t) [SegA; SegD; SegF; SegB; SegE; SegC]).
  unfold painted. cbn [map existsb seg_box covers].
  bools_to_props.
  repeat rewrite orb_true_iff. repeat rewrite andb_true_iff.
  repeat rewrite Z.leb_le. repeat rewrite Z.ltb_lt.
  lia.
Qed.

(** X2.  The strokes of 8 and 0 are solid.  Every pixel of the box that
    is within t pixels of one of its sides is painted by the digit 8,
    whatever the dimensions, and by the digit 0 when the height is even:
    the full-width bars and the half-height columns leave no hole in the
    outline, corners included. *)
Theorem solid_outline (x y w h t d px py : Z) (c : Canvas) :
  d = 8 \/ (d = 0 /\ Z.even h = true) ->
  on_outline x y w h t px py = true ->
  exists c' new,
    segdigit x y w h t d c = Ok (tt, c')
    /\ trace c' = trace c ++ new
    /\ painted new px py = true.
Proof.
  intros Hd Hpix.
  destruct (segdigit_runs x y w h t d c) as (c' & Hrun & Htr & _).
  exists c', (segdigit_ops x y w h t d).
  split; [exact Hrun |]. split; [exact Htr |].
  destruct Hd as [-> | [-> E]].
  - now apply painted_eight.
  - now apply painted_zero.
Qed.

Lemma solid_outline_witness :
  (8 = 8 \/ (8 = 0 /\ Z.even 60 = true))
  /\ on_outline 2 2 23 60 7 24 61 = true
  /\ exists c' new,
       segdigit 2 2 23 60 7 8 blank_canvas = Ok (tt, c')
       /\ trace c' = trace blank_canvas ++ new
       /\ painted new 24 61 = true.
Proof.
  split; [left; reflexivity |]. split; [reflexivity |].
  apply (solid_outline 2 2 23 60 7 8 24 61 blank_canvas);
    [left; reflexivity | reflexivity].
Defined.

(** ** Telling digits apart *)

Lemma seg_box_injective x y w h t s1 s2 :
  0 <= t < w -> t + 2 <= h ->
  seg_box x y w h t s1 = seg_box x y w h t s2 -> s1 = s2.
Proof.
  intros Ht Hh E.
  destruct s1, s2; try reflexivity; exfalso;
    unfold seg_box in E; injection E; intros;
    Z.to_euclidean_division_equations; lia.
Qed.

Lemma map_seg_box_injective x y w h t :
  0 <= t < w -> t + 2 <= h ->
  forall l1 l2,
    map (seg_box x y w h t) l1 = map (seg_box x y w h t) l2 -> l1 = l2.
Proof.
  intros Ht Hh. induction l1 as [|a l1 IH]; intros [|b l2] E;
    try discriminate E; [reflexivity |].
  simpl in E. injection E as Ea El.
  f_equal; [now apply (seg_box_injective x y w h t) | now apply IH].
Qed.

(** No two digits light the same segments. *)
Lemma lit_segments_distinct d1 d2 m1 m2 :
  segmap_at d1 = Some m1 -> segmap_at d2 = Some m2 ->
  lit_segments m1 = lit_segments m2 -> d1 = d2.
Proof.
  intros H1 H2 E.
  assert (R1 : 0 <= d1 <= 9).
  { destruct (Z_le_dec 0 d1); [destruct (Z_le_dec d1 9); [lia |] |];
      rewrite segmap_at_out_of_range in H1 by lia; discriminate H1. }
  assert (R2 : 0 <= d2 <= 9).
  { destruct (Z_le_dec 0 d2); [destruct (Z_le_dec d2 9); [lia |] |];
      rewrite segmap_at_out_of_range in H2 by lia; discriminate H2. }
  apply digit_cases in R1. apply digit_cases in R2.
  repeat (destruct R1 as [-> | R1]); try subst d1;
    repeat (destruct R2 as [-> | R2]); try subst d2;
    try reflexivity;
    vm_compute in H1; vm_compute in H2;
    injection H1 as <-; injection H2 as <-;
    vm_compute in E; discriminate E.
Qed.

Lemma segdigit_ops_distinct x y w h t d1 d2 :
  0 <= t < w -> t + 2 <= h ->
  0 <= d1 <= 9 -> 0 <= d2 <= 9 ->
  segdigit_ops x y w h t d1 = segdigit_ops x y w h t d2 -> d1 = d2.
Proof.
  intros Ht Hh R1 R2 E. unfold segdigit_ops in E.
  destruct (segmap_at_in_range d1 R1) as [m1 H1].
  destruct (segmap_at_in_range d2 R2) as [m2 H2].
  rewrite H1, H2 in E.
  apply (map_seg_box_injective x y w h t Ht Hh) in E.
  exact (lit_segments_distinct d1 d2 m1 m2 H1 H2 E).
Qed.

Lemma segdigit_ops_nonempty x y w h t d :
  0 <= d <= 9 -> segdigit_ops x y w h t d <> [].
Proof.
  intros R. apply digit_cases in R.
  repeat (destruct R as [-> | R]); try subst d; discriminate.
Qed.

Lemma same_run_same_ops m1 m2 a b c :
  emits m1 a -> emits m2 b -> m1 c = m2 c -> a = b.
Proof.
  intros Ha Hb E. rewrite (Ha c), (Hb c) in E.
  injection E as E. apply (f_equal trace) in E.
  rewrite !trace_apply_ops in E. now apply app_inv_head in E.
Qed.

(** X3.  Digits are told apart by their drawing.  In a box wider than
    the stroke and at least two rows higher than it, two digits of 0..9
    that [segdigit] draws with the same rectangles are the same digit. *)
Theorem glyphs_distinct (x y w h t d1 d2 : Z) (c : Canvas) :
  0 <= t < w -> t + 2 <= h ->
  0 <= d1 <= 9 -> 0 <= d2 <= 9 ->
  segdigit x y w h t d1 c = segdigit x y w h t d2 c -> d1 = d2.
Proof.
  intros Ht Hh R1 R2 E.
  apply (segdigit_ops_distinct x y w h t d1 d2 Ht Hh R1 R2).
  exact (same_run_same_ops _ _ _ _ c (segdigit_emits x y w h t d1)
           (segdigit_emits x y w h t d2) E).
Qed.

Lemma glyphs_distinct_witness :
  0 <= 7 < 23 /\ 7 + 2 <= 60 /\ 0 <= 3 <= 9
  /\ segdigit 2 2 23 60 7 3 blank_canvas = segdigit 2 2 23 60 7 3 blank_canvas
  /\ 3 = 3.
Proof.
  split; [lia |]. split; [lia |]. split; [lia |].
  split; [reflexivity |].
  apply (glyphs_distinct 2 2 23 60 7 3 3 blank_canvas); try lia.
  reflexivity.
Defined.

(** In a box as wide as the stroke the left and right columns coincide,
    and 2 is drawn like 3. *)
Example glyphs_confused_when_narrow :
  segdigit 0 0 2 8 2 2 blank_canvas = segdigit 0 0 2 8 2 3 blank_canvas.
Proof. reflexivity. Qed.

(** X4.  Only a digit outside 0..9 is invisible: [segdigit] returns the
    canvas as it was exactly when the digit argument is below 0 or above
    9; every digit of 0..9 adds at least two rectangles, whatever the
    dimensions. *)
Theorem segdigit_blank_only_out_of_range (x y w h t d : Z) (c : Canvas) :
  (segdigit x y w h t d c = Ok (tt, c) <-> d < 0 \/ d > 9)
  /\ (0 <= d <= 9 ->
      exists c' new,
        segdigit x y w h t d c = Ok (tt, c')
        /\ trace c' = trace c ++ new
        /\ (2 <= List.length new <= 7)%nat).
Proof.
  destruct (segdigit_runs x y w h t d c) as (c' & Hrun & Htr & _).
  split; [split |].
  - intros E. destruct (Z_le_dec 0 d); [| lia].
    destruct (Z_le_dec d 9); [| lia]. exfalso.
    rewrite E in Hrun. injection Hrun as <-.
    rewrite <- (app_nil_r (trace c)) in Htr at 1.
    apply app_inv_head in Htr.
    apply (segdigit_ops_nonempty x y w h t d); [lia | now symmetry].
  - intros Hd. unfold segdigit. now rewrite guard_true.
  - intros R. exists c', (segdigit_ops x y w h t d).
    split; [exact Hrun |]. split; [exact Htr |].
    apply digit_cases in R.
    repeat (destruct R as [-> | R]); try subst d; simpl; lia.
Qed.

Lemma segdigit_blank_only_out_of_range_witness :
  0 <= 1 <= 9
  /\ exists c' new,
       segdigit 2 2 23 60 7 1 blank_canvas = Ok (tt, c')
       /\ trace c' = trace blank_canvas ++ new
       /\ (2 <= List.length new <= 7)%nat.
Proof.
  split; [lia |].
  apply (proj2 (segdigit_blank_only_out_of_range 2 2 23 60 7 1
                  blank_canvas)). lia.
Defined.

(** ** Reading the time off a frame *)

Lemma boxes_between_app lo hi a b :
  boxes_between lo hi (a ++ b)
  = boxes_between lo hi a ++ boxes_between lo hi b.
Proof. apply filter_app. Qed.

Lemma seg_box_columns x y w h t s :
  0 < t <= w ->
  x <= box_left (seg_box x y w h t s) < x + w.
Proof. intros Ht. destruct s; simpl; lia. Qed.

Lemma boxes_between_digit_in lo hi x y w h t d :
  0 < t <= w -> lo <= x -> x + w <= hi ->
  boxes_between lo hi (segdigit_ops x y w h t d) = segdigit_ops x y w h t d.
Proof.
  intros Ht Hlo Hhi. apply filter_all. intros op Hop.
  apply segdigit_ops_are_boxes in Hop. destruct Hop as [s ->].
  pose proof (seg_box_columns x y w h t s Ht).
  rewrite seg_box_is_box. order_goals; lia.
Qed.

Lemma boxes_between_digit_out lo hi x y w h t d :
  0 < t <= w -> x + w <= lo \/ hi <= x ->
  boxes_between lo hi (segdigit_ops x y w h t d) = [].
Proof.
  intros Ht Hout. apply filter_none. intros op Hop.
  apply segdigit_ops_are_boxes in Hop. destruct Hop as [s ->].
  pose proof (seg_box_columns x y w h t s Ht).
  rewrite seg_box_is_box. cbn [andb].
  destruct Hout.
  - apply andb_false_intro1, Z.leb_gt. lia.
  - apply andb_false_intro2, Z.ltb_ge. lia.
Qed.

Lemma boxes_between_frames lo hi (l : list Z) :
  boxes_between lo hi (map (fun i => OpFrame 117 (2 + i * 9) 6 8) l) = [].
Proof.
  apply filter_none. intros op Hop. apply in_map_iff in Hop.
  destruct Hop as (i & <- & _). reflexivity.
Qed.

Ltac face_region x :=
  unfold clock_face, face_drawing; rewrite !boxes_between_app;
  rewrite boxes_between_frames;
  rewrite (boxes_between_digit_in _ _ x 2 23 60 7) by lia;
  rewrite !(boxes_between_digit_out _ _ _ 2 23 60 7) by lia;
  match goal with pm : bool |- _ => destruct pm end;
  cbn; now rewrite ?app_nil_r.

(** Each digit of the face is the filled rectangles of its own columns. *)
Lemma face_regions ht ho mt mo n pm :
  let face := clock_face ht ho mt mo n pm in
  boxes_between 2 28 face = segdigit_ops 2 2 23 60 7 ht
  /\ boxes_between 28 53 face = segdigit_ops 28 2 23 60 7 ho
  /\ boxes_between 61 87 face = segdigit_ops 61 2 23 60 7 mt
  /\ boxes_between 87 114 face = segdigit_ops 87 2 23 60 7 mo.
Proof.
  intros face. unfold face.
  split; [face_region 2 |]. split; [face_region 28 |].
  split; [face_region 61 | face_region 87].
Qed.

Lemma zrange_count n1 n2 (f : Z -> DrawOp) :
  map f (zrange 0 n1) = map f (zrange 0 n2) -> n1 = n2.
Proof.
  intros E. apply (f_equal (@List.length DrawOp)) in E.
  now rewrite !length_map, !length_zrange in E.
Qed.

(** The hour is recovered from its 12-hour value and the meridiem. *)
Lemma hour_from_display H24 :
  0 <= H24 <= 23 ->
  H24 = Z.rem (hour12 H24) 12 + (if H24 >=? 12 then 12 else 0).
Proof.
  intros H. unfold hour12.
  destruct (Z.eqb_spec (Z.rem H24 12) 0); destruct (Z.geb_spec H24 12);
    Z.to_euclidean_division_equations; lia.
Qed.

Lemma hour_tens_values H12 :
  1 <= H12 <= 12 -> hour_tens H12 = blank \/ hour_tens H12 = 1.
Proof.
  intros H. unfold hour_tens.
  destruct (Z.eqb_spec (Z.quot H12 10) 0); [now left | right].
  Z.to_euclidean_division_equations; lia.
Qed.

Lemma hour_tens_glyph x y w h t H1 H2 :
  1 <= H1 <= 12 -> 1 <= H2 <= 12 ->
  segdigit_ops x y w h t (hour_tens H1) = segdigit_ops x y w h t (hour_tens H2)
  -> hour_tens H1 = hour_tens H2.
Proof.
  intros R1 R2 E.
  destruct (hour_tens_values H1 R1) as [E1 | E1];
    destruct (hour_tens_values H2 R2) as [E2 | E2];
    rewrite E1, E2 in *; try reflexivity; discriminate E.
Qed.

(** X5.  A frame shows the time without ambiguity.  If the draw callback
    makes the same calls for two valid time samples, the samples have the
    same hour, the same minute and the same ten-second bucket: each digit
    is read off the rectangles of its own columns, the bucket off the
    number of outlines and the half of the day off the text. *)
Theorem frame_determines_time (dt1 dt2 : DateTime) (c : Canvas) :
  valid_time dt1 -> valid_time dt2 ->
  draw_cb dt1 c = draw_cb dt2 c ->
  hour dt1 = hour dt2
  /\ minute dt1 = minute dt2
  /\ Z.quot (second dt1) 10 = Z.quot (second dt2) 10.
Proof.
  intros (Hh1 & Hm1 & Hs1) (Hh2 & Hm2 & Hs2) E.
  destruct (draw_cb_runs dt1 c) as (c1 & Hrun1 & Htr1 & _).
  destruct (draw_cb_runs dt2 c) as (c2 & Hrun2 & Htr2 & _).
  rewrite Hrun1, Hrun2 in E. injection E as <-.
  rewrite Htr1 in Htr2. apply app_inv_head in Htr2. rename Htr2 into F.
  destruct (hour12_cases _ Hh1) as [_ R1].
  destruct (hour12_cases _ Hh2) as [_ R2].
  (* the four digits *)
  pose proof (f_equal (boxes_between 2 28) F) as Fht.
  pose proof (f_equal (boxes_between 28 53) F) as Fho.
  pose proof (f_equal (boxes_between 61 87) F) as Fmt.
  pose proof (f_equal (boxes_between 87 114) F) as Fmo.
  rewrite !(proj1 (face_regions _ _ _ _ _ _)) in Fht.
  rewrite !(proj1 (proj2 (face_regions _ _ _ _ _ _))) in Fho.
  rewrite !(proj1 (proj2 (proj2 (face_regions _ _ _ _ _ _)))) in Fmt.
  rewrite !(proj2 (proj2 (proj2 (face_regions _ _ _ _ _ _)))) in Fmo.
  apply hour_tens_glyph in Fht; trivial.
  apply segdigit_ops_distinct in Fho;
    [| lia | lia | Z.to_euclidean_division_equations; lia ..].
  apply segdigit_ops_distinct in Fmt;
    [| lia | lia | Z.to_euclidean_division_equations; lia ..].
  apply segdigit_ops_distinct in Fmo;
    [| lia | lia | Z.to_euclidean_division_equations; lia ..].
  (* the outlines and the text *)
  pose proof (f_equal (filter is_frame) F) as Fn.
  rewrite !frames_of_face in Fn. apply zrange_count in Fn.
  pose proof (f_equal (filter is_str) F) as Fpm.
  rewrite !strings_of_face in Fpm.
  assert (Epm : (hour dt1 >=? 12) = (hour dt2 >=? 12))
    by (destruct (hour dt1 >=? 12), (hour dt2 >=? 12);
        trivial; discriminate Fpm).
  (* back to the time *)
  assert (E12 : hour12 (hour dt1) = hour12 (hour dt2)).
  { rewrite <- (hour_digits_value _ R1), <- (hour_digits_value _ R2).
    now rewrite Fht, Fho. }
  split; [| split].
  - rewrite (hour_from_display _ Hh1), (hour_from_display _ Hh2).
    now rewrite E12, Epm.
  - Z.to_euclidean_division_equations; lia.
  - unfold progress_count, steps in Fn.
    destruct (Z.gtb_spec (Z.quot (second dt1) 10) 5);
      destruct (Z.gtb_spec (Z.quot (second dt2) 10) 5);
      Z.to_euclidean_division_equations; lia.
Qed.

Lemma frame_determines_time_witness :
  valid_time (mkDateTime 15 47 52) /\ valid_time (mkDateTime 15 47 59)
  /\ draw_cb (mkDateTime 15 47 52) blank_canvas
     = draw_cb (mkDateTime 15 47 59) blank_canvas
  /\ Z.quot 52 10 = Z.quot 59 10.
Proof.
  assert (V1 : valid_time (mkDateTime 15 47 52))
    by (unfold valid_time; simpl; lia).
  assert (V2 : valid_time (mkDateTime 15 47 59))
    by (unfold valid_time; simpl; lia).
  split; [exact V1 |]. split; [exact V2 |]. split; [reflexivity |].
  apply (frame_determines_time (mkDateTime 15 47 52) (mkDateTime 15 47 59)
           blank_canvas V1 V2 eq_refl).
Defined.

(** Noon and midnight differ by the text only. *)
Example noon_and_midnight :
  filter is_box (clock_face 1 2 0 0 0 true)
  = filter is_box (clock_face 1 2 0 0 0 false)
  /\ draw_cb (mkDateTime 12 0 0) blank_canvas
     <> draw_cb (mkDateTime 0 0 0) blank_canvas.
Proof.
  split; [vm_compute; reflexivity |].
  intros E. vm_compute in E. discriminate E.
Qed.

(** X11.  The minute always shows two digits.  For a minute of 0..59
    the rectangles of the minute-tens columns are the glyph of
    minute / 10 and those of the minute-ones columns the glyph of
    minute % 10; the two digits read the minute in decimal and neither
    is ever blank, so a leading zero is drawn (unlike the hour, whose
    tens digit is dropped for 1..9). *)
Theorem minute_two_digits (dt : DateTime) (c : Canvas) :
  0 <= minute dt <= 59 ->
  exists c' new mt mo,
    draw_cb dt c = Ok (tt, c')
    /\ trace c' = trace c ++ new
    /\ 0 <= mt <= 5 /\ 0 <= mo <= 9
    /\ 10 * mt + mo = minute dt
    /\ boxes_between 61 87 new = segdigit_ops 61 2 23 60 7 mt
    /\ boxes_between 87 114 new = segdigit_ops 87 2 23 60 7 mo
    /\ boxes_between 61 87 new <> []
    /\ boxes_between 87 114 new <> [].
Proof.
  intros Hm.
  destruct (draw_cb_runs dt c) as (c' & Hrun & Htr & _).
  exists c'. eexists.
  exists (Z.quot (minute dt) 10), (Z.rem (minute dt) 10).
  split; [exact Hrun |]. split; [exact Htr |].
  destruct (face_regions (hour_tens (hour12 (hour dt)))
              (Z.rem (hour12 (hour dt)) 10)
              (Z.quot (minute dt) 10) (Z.rem (minute dt) 10)
              (progress_count (second dt)) (hour dt >=? 12))
    as (_ & _ & Emt & Emo).
  rewrite Emt, Emo.
  assert (Rt : 0 <= Z.quot (minute dt) 10 <= 5)
    by (Z.to_euclidean_division_equations; lia).
  assert (Ro : 0 <= Z.rem (minute dt) 10 <= 9)
    by (Z.to_euclidean_division_equations; lia).
  split; [exact Rt |]. split; [exact Ro |].
  split; [Z.to_euclidean_division_equations; lia |].
  split; [reflexivity |]. split; [reflexivity |].
  split; apply segdigit_ops_nonempty; lia.
Qed.

Lemma minute_two_digits_witness :
  0 <= minute (mkDateTime 9 5 37) <= 59
  /\ exists c' new mt mo,
       draw_cb (mkDateTime 9 5 37) blank_canvas = Ok (tt, c')
       /\ trace c' = trace blank_canvas ++ new
       /\ 0 <= mt <= 5 /\ 0 <= mo <= 9
       /\ 10 * mt + mo = minute (mkDateTime 9 5 37)
       /\ boxes_between 61 87 new = segdigit_ops 61 2 23 60 7 mt
       /\ boxes_between 87 114 new = segdigit_ops 87 2 23 60 7 mo
       /\ boxes_between 61 87 new <> []
       /\ boxes_between 87 114 new <> [].
Proof.
  split; [simpl; lia |].
  apply (minute_two_digits (mkDateTime 9 5 37) blank_canvas). simpl; lia.
Defined.

(** ** Any clock, any layout *)

(** X6.  The callback is robust to a clock that returns garbage.  For
    every value of the hour, minute and second fields, valid or not, it
    returns normally with [FontPrimary] selected and every call inside
    the canvas: a digit value outside 0..9 draws nothing instead of
    reading past the table, the progress column stops at five, and a
    frame is between 5 and 38 canvas calls. *)
Theorem frame_for_any_clock (dt : DateTime) (c : Canvas) :
  exists c' new,
    draw_cb dt c = Ok (tt, c')
    /\ trace c' = trace c ++ new
    /\ font c' = FontPrimary
    /\ forallb in_canvas new = true
    /\ (List.length (filter is_frame new) <= 5)%nat
    /\ (5 <= List.length new <= 38)%nat.
Proof.
  destruct (draw_cb_runs dt c) as (c' & Hrun & Htr & Hfont).
  exists c'. eexists. split; [exact Hrun |]. split; [exact Htr |].
  split; [exact Hfont |].
  pose proof (progress_count_le (second dt)) as Hn. unfold steps in Hn.
  split; [| split].
  - apply forallb_forall. intros op Hop. now apply face_in_canvas in Hop.
  - rewrite frames_of_face, length_map, length_zrange. lia.
  - unfold clock_face, face_drawing.
    rewrite !length_app, length_map, length_zrange. cbn [List.length].
    assert (G : forall x d,
               (List.length (segdigit_ops x 2 23 60 7 d) <= 7)%nat).
    { intros x d. unfold segdigit_ops. destruct (segmap_at d); [| simpl; lia].
      rewrite length_map. unfold lit_segments.
      etransitivity; [apply filter_length_le | simpl; lia]. }
    pose proof (G 2 (hour_tens (hour12 (hour dt)))).
    pose proof (G 28 (Z.rem (hour12 (hour dt)) 10)).
    pose proof (G 61 (Z.quot (minute dt) 10)).
    pose proof (G 87 (Z.rem (minute dt) 10)).
    lia.
Qed.

(** An hour, a minute and a second of 255 each: the hour shows as 3 PM,
    the minute digit 25 is skipped, its ones digit 5 is drawn, and the
    column has five boxes. *)
Example frame_255_255_255 :
  draw_cb (mkDateTime 255 255 255) blank_canvas
  = Ok (tt, {| trace := clock_face blank 3 25 5 5 true;
               font := FontPrimary |})
  /\ segdigit_ops 61 2 23 60 7 25 = [].
Proof. split; reflexivity. Qed.

Lemma seg_box_span x y w h t s :
  0 <= t <= w ->
  x <= box_left (seg_box x y w h t s)
  /\ box_right (seg_box x y w h t s) <= x + w.
Proof. intros Ht. destruct s; simpl; lia. Qed.

Lemma segdigit_ops_span x y w h t d lo hi op :
  0 <= t <= w -> lo <= x -> x + w <= hi ->
  In op (segdigit_ops x y w h t d) ->
  lo <= box_left op /\ box_right op <= hi.
Proof.
  intros Ht Hlo Hhi Hop.
  apply segdigit_ops_are_boxes in Hop. destruct Hop as [s ->].
  pose proof (seg_box_span x y w h t s Ht). lia.
Qed.

(** X7.  The guard keeps the digits out of the gutter, for any layout
    constants.  When stroke, gaps and colon width are not negative, the
    stroke is at most the digit width, the gutter is at least as wide as
    a progress box and the guard [xM1 + w <= right_edge] holds: every
    filled rectangle of a frame lies between [x0] and [right_edge]; every
    outline lies between [right_edge] and the 2-pixel right margin; and
    the text starts one pixel right of [right_edge]. *)
Theorem guard_protects_gutter (L : Layout) (dt : DateTime) (c : Canvas) :
  0 <= lay_t L <= lay_w L ->
  0 <= lay_gap L -> 0 <= colon_w L -> 0 <= colon_gap L ->
  bar_w <= bar_area_w L ->
  xM1 L + lay_w L <= right_edge L ->
  exists c' new,
    draw_cb_with L dt c = Ok (tt, c')
    /\ trace c' = trace c ++ new
    /\ forall op, In op new ->
         match op with
         | OpBox x _ w _ => lay_x0 L <= x /\ x + w <= right_edge L
         | OpFrame x _ w _ => right_edge L <= x /\ x + w <= canvas_w L - 2
         | OpStr x _ _ => x = right_edge L + 1
         | OpSetFont _ => True
         end.
Proof.
  intros Ht Hgap Hcw Hcg Hbar Hfit.
  destruct (draw_cb_with_runs L dt c) as (c' & Hrun & Htr & _).
  exists c', (frame_ops L dt).
  split; [exact Hrun |]. split; [exact Htr |].
  intros op Hop. unfold frame_ops in Hop.
  apply in_app_or in Hop. destruct Hop as [Hop | Hop];
    [| apply in_app_or in Hop; destruct Hop as [Hop | Hop]].
  - unfold digit_ops, fits in Hop.
    destruct (Z.leb_spec (xM1 L + lay_w L) (right_edge L)); [| lia].
    assert (Hx : lay_x0 L <= xH0 L /\ xH0 L + lay_w L <= xH1 L
                 /\ xH1 L + lay_w L <= cx L /\ cx L + colon_w L <= xM0 L
                 /\ xM0 L + lay_w L <= xM1 L)
      by (unfold xM1, xM0, cx, xH1, xH0; lia).
    repeat (apply in_app_or in Hop; destruct Hop as [Hop | Hop]);
      try (pose proof Hop as Hbox;
           apply segdigit_ops_are_boxes in Hbox; destruct Hbox as [s Es];
           apply (segdigit_ops_span _ _ _ _ _ _ (lay_x0 L) (right_edge L))
             in Hop; [| lia ..];
           rewrite Es in *; destruct s; simpl in *; lia).
    destruct Hop as [<- | [<- | []]]; lia.
  - unfold progress_ops in Hop. apply in_map_iff in Hop.
    destruct Hop as (i & <- & _). unfold progress_frame, right_edge, bar_w in *.
    Z.to_euclidean_division_equations; lia.
  - unfold meridiem_ops, meridiem_label in Hop.
    destruct (hour dt >=? 12);
      destruct Hop as [<- | [<- | [<- | []]]]; trivial.
Qed.

Lemma guard_protects_gutter_witness :
  0 <= lay_t shipped <= lay_w shipped
  /\ bar_w <= bar_area_w shipped
  /\ xM1 shipped + lay_w shipped <= right_edge shipped
  /\ exists c' new,
       draw_cb_with shipped (mkDateTime 9 5 37) blank_canvas = Ok (tt, c')
       /\ trace c' = trace blank_canvas ++ new
       /\ forall op, In op new ->
            match op with
            | OpBox x _ w _ =>
                lay_x0 shipped <= x /\ x + w <= right_edge shipped
            | OpFrame x _ w _ =>
                right_edge shipped <= x /\ x + w <= canvas_w shipped - 2
            | OpStr x _ _ => x = right_edge shipped + 1
            | OpSetFont _ => True
            end.
Proof.
  split; [vm_compute; split; discriminate |].
  split; [vm_compute; discriminate |].
  split; [vm_compute; discriminate |].
  apply (guard_protects_gutter shipped (mkDateTime 9 5 37) blank_canvas);
    vm_compute; try split; discriminate.
Defined.

(** ** The colon *)

(** X8.  The colon is two separate squares.  For a dot size of 0..24,
    [draw_colon] adds two filled squares of that side in the column x,
    the upper one on the rows from y + 16 and the lower one on the rows
    from y + 40; no pixel is painted by both, and for a dot size up to 20
    both lie on the 60 rows from y. *)
Theorem colon_dots (x y t : Z) (c : Canvas) :
  0 <= t <= 24 ->
  exists c' upper lower,
    draw_colon x y t c = Ok (tt, c')
    /\ trace c' = trace c ++ [upper; lower]
    /\ font c' = font c
    /\ upper = OpBox x (y + 16) t t /\ lower = OpBox x (y + 40) t t
    /\ op_bottom upper <= op_top lower
    /\ (forall px py, covers upper px py && covers lower px py = false)
    /\ (t <= 20 ->
        inside x y t 60 upper = true /\ inside x y t 60 lower = true).
Proof.
  intros Ht.
  exists (apply_ops c [OpBox x (y + 16) t t; OpBox x (y + 40) t t]).
  do 2 eexists.
  split; [apply draw_colon_emits |].
  split; [apply trace_apply_ops |].
  split; [reflexivity |]. split; [reflexivity |]. split; [reflexivity |].
  split; [simpl; lia |]. split.
  - intros px py. unfold covers.
    destruct (Z.ltb_spec py (y + 16 + t));
      destruct (Z.leb_spec (y + 40) py); try lia;
      rewrite ?andb_false_r; trivial.
  - intros H20. split; unfold inside; order_goals; lia.
Qed.

Lemma colon_dots_witness :
  0 <= 6 <= 24 /\ 6 <= 20
  /\ inside 53 2 6 60 (OpBox 53 (2 + 16) 6 6) = true.
Proof.
  split; [lia |]. split; [lia |].
  destruct (colon_dots 53 2 6 blank_canvas)
    as (c' & u & l & _ & _ & _ & -> & _ & _ & _ & Hin); [lia |].
  apply Hin. lia.
Defined.

(** * Properties of the entry point *)

Section EntryPoint.

Lemma is_exit_spec e :
  is_exit e = true <-> type e = InputTypeShort /\ key e = InputKeyBack.
Proof.
  unfold is_exit. destruct (type e), (key e); split;
    intros; try discriminate; try tauto; destruct H; discriminate.
Qed.

(** The loop takes the events in order up to the first exit event, or
    all of them. *)
Lemma event_loop_on_spec events : forall log,
  match event_loop_on events log with
  | Done _ st =>
      exists before e after,
        events = before ++ e :: after
        /\ is_exit e = true
        /\ (forall b, In b before -> is_exit b = false)
        /\ pending st = after
        /\ calls st = log ++ map MessageQueueGet (before ++ [e])
  | Waiting st =>
      (forall e, In e events -> is_exit e = false)
      /\ pending st = []
      /\ calls st = log ++ map MessageQueueGet events
  end.
Proof.
  induction events as [|e rest IH]; intros log; simpl.
  - split; [intros e [] |]. split; [reflexivity | now rewrite app_nil_r].
  - destruct (is_exit e) eqn:Ee.
    + exists [], e, rest. simpl. repeat split; trivial. intros b [].
    + specialize (IH (log ++ [MessageQueueGet e])).
      destruct (event_loop_on rest (log ++ [MessageQueueGet e]))
        as [[] st | st].
      * destruct IH as (before & x & after & -> & Hx & Hb & Hp & Hc).
        exists (e :: before), x, after. simpl.
        split; [reflexivity |]. split; [exact Hx |].
        split; [intros b [<- | Hin]; auto |].
        split; [exact Hp |]. rewrite Hc, <- app_assoc. reflexivity.
      * destruct IH as (Hall & Hp & Hc).
        split; [intros b [<- | Hin]; auto |].
        split; [exact Hp |]. rewrite Hc, <- app_assoc. reflexivity.
Qed.

(** The entry point around its loop. *)
Lemma bigclock_app_unfold events :
  bigclock_app (boot events) =
  match event_loop_on events startup with
  | Done _ st =>
      Done 0 {| pending := pending st; calls := calls st ++ shutdown |}
  | Waiting st => Waiting st
  end.
Proof.
  unfold bigclock_app, hbind, call, event_loop, boot, hret. simpl.
  change [MessageQueueAlloc 8; ViewPortAlloc; ViewPortDrawCallbackSet;
          ViewPortInputCallbackSet; RecordOpen RECORD_GUI; GuiAddViewPort;
          RecordOpen RECORD_NOTIFICATION;
          NotificationMessage sequence_display_backlight_enforce_on;
          TimerAlloc; TimerStart 1000] with startup.
  destruct (event_loop_on events startup) as [[] st | st]; [| reflexivity].
  simpl. f_equal. f_equal. unfold shutdown.
  repeat rewrite <- app_assoc. reflexivity.
Qed.

Lemma events_taken_app a b :
  events_taken (a ++ b) = events_taken a ++ events_taken b.
Proof. unfold events_taken. apply flat_map_app. Qed.

Lemma events_taken_gets l : events_taken (map MessageQueueGet l) = l.
Proof. induction l as [|e l IH]; simpl; [| rewrite IH]; reflexivity. Qed.

Lemma host_steps_app a : forall s b,
  host_steps s (a ++ b) =
  match host_steps s a with
  | Some s' => host_steps s' b
  | None => None
  end.
Proof.
  induction a as [|hc a IH]; intros s b; simpl; [reflexivity |].
  destruct (host_step s hc); [apply IH | reflexivity].
Qed.

Lemma host_steps_gets l :
  host_steps all_held (map MessageQueueGet l) = Some all_held.
Proof. induction l as [|e l IH]; simpl; trivial. Qed.

(** The run of the entry point on any sequence of events. *)
Lemma bigclock_app_runs events :
  match bigclock_app (boot events) with
  | Done status st =>
      status = 0
      /\ exists before e after,
           events = before ++ e :: after
           /\ is_exit e = true
           /\ (forall b, In b before -> is_exit b = false)
           /\ pending st = after
           /\ calls st =
              startup ++ map MessageQueueGet (before ++ [e]) ++ shutdown
  | Waiting st =>
      (forall e, In e events -> is_exit e = false)
      /\ pending st = []
      /\ calls st = startup ++ map MessageQueueGet events
  end.
Proof.
  rewrite bigclock_app_unfold.
  pose proof (event_loop_on_spec events startup) as S.
  destruct (event_loop_on events startup) as [[] st | st]; [| exact S].
  destruct S as (before & e & after & He & Hx & Hb & Hp & Hc).
  split; [reflexivity |]. exists before, e, after.
  repeat (split; trivial). simpl. now rewrite Hc, <- app_assoc.
Qed.

End EntryPoint.

(** X9.  Only a short press of BACK ends the application.  The entry
    point returns exactly when the events delivered contain a short
    press of BACK, and then with status 0; it has taken the events up to
    and including the first such press, in order, and none after it.
    When no such press is delivered it takes every event (a long press
    of BACK or a short press of another key included) and then waits. *)
Theorem back_short_press_exits (events : list InputEvent) :
  ((exists status st, bigclock_app (boot events) = Done status st)
   <-> exists e,
         In e events /\ type e = InputTypeShort /\ key e = InputKeyBack)
  /\ (forall status st,
        bigclock_app (boot events) = Done status st ->
        status = 0
        /\ exists before e after,
             events = before ++ e :: after
             /\ type e = InputTypeShort /\ key e = InputKeyBack
             /\ (forall b, In b before ->
                   ~ (type b = InputTypeShort /\ key b = InputKeyBack))
             /\ events_taken (calls st) = before ++ [e]
             /\ pending st = after)
  /\ (forall st,
        bigclock_app (boot events) = Waiting st ->
        events_taken (calls st) = events /\ pending st = []).
Proof.
  pose proof (bigclock_app_runs events) as R.
  destruct (bigclock_app (boot events)) as [status st | st].
  - destruct R as (-> & before & e & after & He & Hx & Hb & Hp & Hc).
    apply is_exit_spec in Hx.
    split; [| split].
    + split; [intros _ | intros _; eauto].
      exists e. split; [| exact Hx]. rewrite He. apply in_elt.
    + intros status' st' E. injection E as <- <-.
      split; [reflexivity |]. exists before, e, after.
      split; [exact He |]. split; [apply Hx |]. split; [apply Hx |].
      split.
      * intros b Hin Habs. apply is_exit_spec in Habs.
        rewrite (Hb b Hin) in Habs. discriminate Habs.
      * split; [| exact Hp].
        rewrite Hc, !events_taken_app, events_taken_gets.
        change (events_taken startup) with (@nil InputEvent).
        change (events_taken shutdown) with (@nil InputEvent).
        apply app_nil_r.
    + intros st' E. discriminate E.
  - destruct R as (Hall & Hp & Hc).
    split; [| split].
    + split; [intros (status & st' & E); discriminate E |].
      intros (e & Hin & Hx). apply is_exit_spec in Hx.
      rewrite (Hall e Hin) in Hx. discriminate Hx.
    + intros status st' E. discriminate E.
    + intros st' E. injection E as <-.
      split; [| exact Hp].
      rewrite Hc, events_taken_app, events_taken_gets. reflexivity.
Qed.

Lemma back_short_press_exits_witness :
  (exists status st,
     bigclock_app (boot [mkInputEvent InputTypeLong InputKeyBack;
                         mkInputEvent InputTypeShort InputKeyBack])
     = Done status st)
  /\ exists e,
       In e [mkInputEvent InputTypeLong InputKeyBack;
             mkInputEvent InputTypeShort InputKeyBack]
       /\ type e = InputTypeShort /\ key e = InputKeyBack.
Proof.
  assert (D : exists status st,
             bigclock_app (boot [mkInputEvent InputTypeLong InputKeyBack;
                                 mkInputEvent InputTypeShort InputKeyBack])
             = Done status st)
    by (exists 0; eexists; vm_compute; reflexivity).
  split; [exact D |].
  exact (proj1 (proj1 (back_short_press_exits _)) D).
Defined.

(** A long press of BACK, then OK, then a short press of BACK: the third
    event ends the application and the fourth is left in the queue. *)
Example run_until_back :
  bigclock_app
    (boot [mkInputEvent InputTypeLong InputKeyBack;
           mkInputEvent InputTypeShort InputKeyOk;
           mkInputEvent InputTypeShort InputKeyBack;
           mkInputEvent InputTypeShort InputKeyUp])
  = Done 0
      {| pending := [mkInputEvent InputTypeShort InputKeyUp];
         calls :=
           startup
           ++ [MessageQueueGet (mkInputEvent InputTypeLong InputKeyBack);
               MessageQueueGet (mkInputEvent InputTypeShort InputKeyOk);
               MessageQueueGet (mkInputEvent InputTypeShort InputKeyBack)]
           ++ shutdown |}.
Proof. reflexivity. Qed.

(** X10.  The entry point keeps the discipline of the host's resources
    and gives back all it took.  On every sequence of events each call
    is allowed at its point (nothing used before it is acquired or after
    it is released, nothing acquired twice, the timer stopped and freed
    before the view port its callback uses, the view port removed from
    the GUI and freed before the queue its callback uses).  When the
    entry point returns it holds nothing and the backlight is no longer
    enforced; while it waits in its loop it holds everything, with the
    timer running and the backlight enforced. *)
Theorem resources_released (events : list InputEvent) :
  (forall status st,
     bigclock_app (boot events) = Done status st ->
     host_steps nothing_held (calls st) = Some nothing_held)
  /\ (forall st,
        bigclock_app (boot events) = Waiting st ->
        host_steps nothing_held (calls st) = Some all_held).
Proof.
  pose proof (bigclock_app_runs events) as R.
  destruct (bigclock_app (boot events)) as [status st | st].
  - destruct R as (_ & before & e & after & _ & _ & _ & _ & Hc).
    split; [| intros st' E; discriminate E].
    intros status' st' E. injection E as <- <-. rewrite Hc.
    rewrite host_steps_app.
    change (host_steps nothing_held startup) with (Some all_held).
    cbv iota beta.
    rewrite host_steps_app, host_steps_gets. reflexivity.
  - destruct R as (_ & _ & Hc).
    split; [intros status st' E; discriminate E |].
    intros st' E. injection E as <-. rewrite Hc.
    rewrite host_steps_app.
    change (host_steps nothing_held startup) with (Some all_held).
    cbv iota beta. apply host_steps_gets.
Qed.

Lemma resources_released_witness :
  bigclock_app (boot [mkInputEvent InputTypeShort InputKeyBack])
  = Done 0 {| pending := [];
              calls := startup
                       ++ [MessageQueueGet
                             (mkInputEvent InputTypeShort InputKeyBack)]
                       ++ shutdown |}
  /\ host_steps nothing_held
       (startup
        ++ [MessageQueueGet (mkInputEvent InputTypeShort InputKeyBack)]
        ++ shutdown)
     = Some nothing_held.
Proof.
  assert (E : bigclock_app (boot [mkInputEvent InputTypeShort InputKeyBack])
              = Done 0 {| pending := [];
                          calls := startup
                                   ++ [MessageQueueGet
                                         (mkInputEvent InputTypeShort
                                            InputKeyBack)]
                                   ++ shutdown |})
    by (vm_compute; reflexivity).
  split; [exact E |].
  exact (proj1 (resources_released _) 0 _ E).
Defined.

(** Freeing the view port while the timer is still allocated, as a
    shutdown in another order would, breaks the discipline. *)
Example view_port_freed_too_early :
  host_steps nothing_held
    (startup ++ [GuiRemoveViewPort; ViewPortFree; TimerStop; TimerFree])
  = None.
Proof. reflexivity. Qed.
